(** * User service: a shallow embedding of the request handlers

    The development follows the Python sources:
    - [routes/user_routes.py]: [hash_password] and the five handlers
      [get_all_users], [create_user], [get_user], [update_user],
      [delete_user];
    - [utils/exceptions.py]: the classified HTTP exceptions;
    - [models/user.py]: the request bodies [UserCreate] and [UserUpdate];
    - [config/database.py] and the lifespan of [main.py]: the connection
      globals.

    The handlers are [async] functions that talk to a MongoDB collection
    ([db.users]) and to [bcrypt].  Each [await db.users.<op>] and each
    [bcrypt] call is an explicit node of a small program type [prog]; an
    interpreter runs a program against a collection and logs every call.

    Python [str] values are Rocq strings (text outside ASCII appears in its
    UTF-8 encoding); Python dictionaries and MongoDB documents are finite
    maps from field names to values. *)

From Stdlib Require Import ZArith String Ascii.
From Stdlib.Strings Require Import Byte.
From stdpp Require Import gmap strings list fin_maps pretty.

Local Open Scope Z_scope.

(** ** Python truthiness of the values the handlers test *)

(** [if s:] on a [str]: the empty string is falsy. *)
Definition str_truthy (s : string) : bool :=
  match s with EmptyString => false | String _ _ => true end.

(** [if s:] on an [Optional[str]]: [None] and [""] are falsy. *)
Definition opt_truthy (o : option string) : bool :=
  match o with None => false | Some s => str_truthy s end.

(** ** bson.ObjectId *)

#[global] Instance byte_eq_dec : EqDecision byte := Byte.byte_eq_dec.

Module bson.

(** An ObjectId wraps its binary form ([self.__id]). *)
Record ObjectId : Type := mkObjectId { binary : list byte }.

#[global] Instance ObjectId_eq_dec : EqDecision ObjectId.
Proof. solve_decision. Defined.

(** [Py_ISSPACE]: space, and the control characters 9 to 13. *)
Definition is_space (c : ascii) : bool :=
  let n := N_of_ascii c in
  ((n =? 32) || ((9 <=? n) && (n <=? 13)))%N.

(** Value of a hexadecimal digit in either letter case
    ([_PyLong_DigitValue] restricted to values below 16). *)
Definition hex_value (c : ascii) : option N :=
  let n := N_of_ascii c in
  if ((48 <=? n) && (n <=? 57))%N then Some (n - 48)%N
  else if ((97 <=? n) && (n <=? 102))%N then Some (n - 87)%N
  else if ((65 <=? n) && (n <=? 70))%N then Some (n - 55)%N
  else None.

Definition byte_of_nibbles (top bot : N) : byte :=
  byte_of_ascii (ascii_of_N (16 * top + bot)).

(** [bytes.fromhex]: runs of ASCII whitespace between bytes are skipped,
    every byte is written as two adjacent hexadecimal digits, anything
    else raises [ValueError] (here [None]). *)
Fixpoint fromhex (s : string) : option (list byte) :=
  match s with
  | EmptyString => Some []
  | String c rest =>
      if is_space c then fromhex rest
      else
        match hex_value c, rest with
        | Some top, String c' rest' =>
            match hex_value c' with
            | Some bot => cons (byte_of_nibbles top bot) <$> fromhex rest'
            | None => None
            end
        | _, _ => None
        end
  end.

(** [ObjectId(oid)] for a [str] argument: the length must be 24 and
    [bytes.fromhex] must accept it; [InvalidId] is [None]. *)
Definition ObjectId_new (oid : string) : option ObjectId :=
  if (String.length oid =? 24)%nat then mkObjectId <$> fromhex oid
  else None.

(** [ObjectId.is_valid(oid)]. *)
Definition is_valid (oid : string) : bool :=
  if negb (str_truthy oid) then false
  else match ObjectId_new oid with Some _ => true | None => false end.

Definition hex_digit (n : N) : ascii :=
  if (n <? 10)%N then ascii_of_N (48 + n) else ascii_of_N (87 + n).

(** [binascii.hexlify]: two lowercase digits per byte. *)
Fixpoint hexlify (bs : list byte) : string :=
  match bs with
  | [] => EmptyString
  | b :: bs' =>
      let n := Byte.to_N b in
      String (hex_digit (n / 16)) (String (hex_digit (n mod 16)) (hexlify bs'))
  end.

(** [str(oid)]. *)
Definition str (o : ObjectId) : string := hexlify (binary o).

End bson.

Import bson.

(** The identifiers the specification calls well formed: 24 characters, each
    a decimal digit or a lowercase letter from a to f. *)
Definition is_lower_hex (c : ascii) : bool :=
  let n := N_of_ascii c in
  (((48 <=? n) && (n <=? 57)) || ((97 <=? n) && (n <=? 102)))%N.

Fixpoint all_chars (p : ascii → bool) (s : string) : bool :=
  match s with
  | EmptyString => true
  | String c rest => p c && all_chars p rest
  end.

Definition lower_hex24 (s : string) : bool :=
  (String.length s =? 24)%nat && all_chars is_lower_hex s.

Definition is_hex (c : ascii) : bool :=
  match hex_value c with Some _ => true | None => false end.

Definition hex24 (s : string) : bool :=
  (String.length s =? 24)%nat && all_chars is_hex s.

(** ** Values, documents and queries *)

(** The values that occur in the documents and dictionaries of the handlers. *)
Inductive value : Type :=
| VStr (s : string)
| VOid (o : ObjectId)
| VInt (n : Z).

#[global] Instance value_eq_dec : EqDecision value.
Proof. solve_decision. Defined.

(** A Python [dict] with [str] keys; also a MongoDB document. *)
Abbreviation document := (gmap string value).

(** [str(v)] for the values above. *)
Definition py_str (v : value) : string :=
  match v with
  | VStr s => s
  | VOid o => str o
  | VInt n => pretty n
  end.

(** One field of a query: [{k: v}] or [{k: {"$ne": v}}]. *)
Inductive cond : Type :=
| CEq (v : value)
| CNe (v : value).

(** A query dictionary, e.g. [{"email": e, "_id": {"$ne": oid}}]. *)
Abbreviation query := (list (string * cond)).

Definition field_eqb (d : document) (k : string) (v : value) : bool :=
  bool_decide (d !! k = Some v).

Definition holds (d : document) (kc : string * cond) : bool :=
  match kc.2 with
  | CEq v => field_eqb d kc.1 v
  | CNe v => negb (field_eqb d kc.1 v)
  end.

(** A document matches a query when every field condition holds; [{}]
    matches every document. *)
Definition matches (q : query) (d : document) : bool := forallb (holds d) q.

(** ** The collection [db.users]

    Documents in storage (natural) order, each under its [_id] key.
    MongoDB keeps a unique index on [_id]: [unique_ids] below. *)
Abbreviation collection := (list (ObjectId * document)).

(** The document as the driver returns it: its fields together with [_id]. *)
Definition to_doc (r : ObjectId * document) : document :=
  <["_id" := VOid r.1]> r.2.

Definition selects (q : query) (r : ObjectId * document) : bool :=
  matches q (to_doc r).

(** [find_one(q)]: the first matching document, or [None].  Keys are
    compared by their bytes.  The stored keys have twelve bytes; a query key
    of another length, which only the parse of an identifier with whitespace
    in it yields, is taken to match no stored key. *)
Definition find_one (q : query) (c : collection) : option document :=
  to_doc <$> List.find (selects q) c.

(** [find(q).to_list(length=None)]: every matching document, in order. *)
Definition find (q : query) (c : collection) : list document :=
  to_doc <$> List.filter (selects q) c.

(** [insert_one(d)] for a dictionary [d] without [_id]: the driver generates
    the key [oid]; the server appends the document, or refuses a key that
    is already present ([DuplicateKeyError], here [None]). *)
Definition insert_one (d : document) (oid : ObjectId) (c : collection)
  : option collection :=
  if bool_decide (oid ∈ c.*1) then None else Some (c ++ [(oid, d)]).

(** [update_one(q, {"$set": upd})]: the fields of [upd] are written into the
    first matching document; its other fields, its key and its position
    stay. *)
Fixpoint update_one (q : query) (upd : document) (c : collection) : collection :=
  match c with
  | [] => []
  | r :: c' =>
      if selects q r then (r.1, upd ∪ r.2) :: c'
      else r :: update_one q upd c'
  end.

(** [delete_one(q)]: removes the first matching document; the first
    component is [deleted_count]. *)
Fixpoint delete_one (q : query) (c : collection) : Z * collection :=
  match c with
  | [] => (0, [])
  | r :: c' =>
      if selects q r then (1, c')
      else let '(n, c'') := delete_one q c' in (n, r :: c'')
  end.

Definition unique_ids (c : collection) : Prop := NoDup c.*1.

(** The stored document's [email] field is the string [e]. *)
Definition has_email (e : string) (r : ObjectId * document) : bool :=
  field_eqb r.2 "email" (VStr e).

(** The documents of [c] whose [email] field is the string [e]. *)
Definition holders (e : string) (c : collection) : collection :=
  List.filter (has_email e) c.

Definition has_key (oid : ObjectId) (r : ObjectId * document) : bool :=
  bool_decide (r.1 = oid).

(** The first document stored under [oid]. *)
Definition by_key (oid : ObjectId) (c : collection)
  : option (ObjectId * document) :=
  List.find (has_key oid) c.

(** A stored document as the handlers hand it to the envelope: every field,
    with [_id] turned into its string form. *)
Definition returned (r : ObjectId * document) : document :=
  <["_id" := VStr (str r.1)]> r.2.

(** At most one document holds any given email value. *)
Definition unique_emails (c : collection) : Prop :=
  ∀ e, (length (holders e c) ≤ 1)%nat.

(** ** utils/exceptions.py *)

Module exceptions.

Record CustomHTTPException : Type := mkException {
  status_code : Z;
  message : string;
  resource : option string;
  identifier : option string
}.

#[global] Instance CustomHTTPException_eq_dec : EqDecision CustomHTTPException.
Proof. solve_decision. Defined.

Definition set_if_truthy (k : string) (o : option string) (d : document)
  : document :=
  match o with
  | Some s => if str_truthy s then <[k := VStr s]> d else d
  | None => d
  end.

(** [_build_detail]: the message, then [resource] and [identifier] when they
    are truthy. *)
Definition _build_detail (e : CustomHTTPException) : document :=
  set_if_truthy "identifier" (identifier e)
    (set_if_truthy "resource" (resource e)
      {[ "message" := VStr (message e) ]}).

(** The [detail] attribute set by the constructor. *)
Definition detail (e : CustomHTTPException) : document := _build_detail e.

Definition NotFoundException (resource : string) (identifier : option string)
  : CustomHTTPException :=
  let message := resource +:+ " no encontrado" in
  let message :=
    if opt_truthy identifier
    then message +:+ " con identificador: " +:+ default "" identifier
    else message in
  mkException 404 message (Some resource) identifier.

Definition AlreadyExistsException (resource : string) (identifier : option string)
  : CustomHTTPException :=
  let message := resource +:+ " ya existe" in
  let message :=
    if opt_truthy identifier
    then message +:+ " con: " +:+ default "" identifier
    else message in
  mkException 409 message (Some resource) identifier.

Definition BadRequestException (message : string)
  (resource identifier : option string) : CustomHTTPException :=
  mkException 400 message resource identifier.

End exceptions.

Import exceptions.

(** ** Response envelopes *)

(** The [data] of an envelope: one dictionary or a list of dictionaries. *)
Inductive payload : Type :=
| DataDoc (d : document)
| DataList (l : list document).

Record envelope : Type := mkEnvelope {
  success : bool;
  statusCode : Z;
  env_message : string;
  data : payload;
  count : option Z
}.

(** Modelled from the spec: [utils/response.py], which defines
    [success_response], is not among the sources.  Following the response
    envelope of section 6, the result carries [success], [statusCode],
    [message] and [data], and a list response additionally carries [count],
    the length of [data].  The parameters are the keyword arguments of the
    call sites; [status_code] is 200 where a call site omits it. *)
Definition success_response (data : payload) (message : string)
  (status_code : Z) : envelope :=
  {| success := true;
     statusCode := status_code;
     env_message := message;
     data := data;
     count := match data with
              | DataList l => Some (Z.of_nat (length l))
              | DataDoc _ => None
              end |}.

(** Modelled from the spec: the boundary handler installed by
    [setup_exception_handlers] ([utils/middleware.py]) is not among the
    sources.  Following sections 6 and 7, a classified error becomes an
    envelope with [success] false, the error's status and message, and the
    error's [resource] and [identifier] context, where present, as [data]. *)
Definition error_response (e : CustomHTTPException) : envelope :=
  {| success := false;
     statusCode := status_code e;
     env_message := message e;
     data := DataDoc (delete "message" (detail e));
     count := None |}.

(** ** models/user.py *)

(** [UserCreate]; [UserUpdate] declares the same three fields. *)
Record UserCreate : Type := mkUser {
  name : string;
  email : string;
  password : string
}.

Abbreviation UserUpdate := UserCreate.

(** [model_dump()]. *)
Definition model_dump (u : UserCreate) : document :=
  {[ "name" := VStr (name u);
     "email" := VStr (email u);
     "password" := VStr (password u) ]}.

(** ** Handler programs *)

(** What a handler can raise: a classified HTTP exception, or one of the
    Python, driver and [bcrypt] exceptions that reach the caller
    unclassified.  [HashValueError] is the [ValueError] with which
    [bcrypt.hashpw] refuses a password. *)
Inductive exn : Type :=
| HTTP (e : CustomHTTPException)
| InvalidId
| KeyError (k : string)
| TypeError
| DuplicateKeyError
| HashValueError.

(** A handler body: [Ret] and [Raise] end it; every other node is one call
    to the collection or to [bcrypt], followed by the rest of the body. *)
Inductive prog (A : Type) : Type :=
| Ret (a : A)
| Raise (x : exn)
| FindOne (q : query) (k : option document → prog A)
| Find (q : query) (k : list document → prog A)
| InsertOne (d : document) (k : ObjectId → prog A)
| UpdateOne (q : query) (upd : document) (k : unit → prog A)
| DeleteOne (q : query) (k : Z → prog A)
| GenSalt (k : string → prog A)
| HashPw (pw salt : string) (k : string → prog A).

Arguments Ret {A} a.
Arguments Raise {A} x.
Arguments FindOne {A} q k.
Arguments Find {A} q k.
Arguments InsertOne {A} d k.
Arguments UpdateOne {A} q upd k.
Arguments DeleteOne {A} q k.
Arguments GenSalt {A} k.
Arguments HashPw {A} pw salt k.

Fixpoint prog_bind {A B : Type} (f : A → prog B) (p : prog A) : prog B :=
  match p with
  | Ret a => f a
  | Raise x => Raise x
  | FindOne q k => FindOne q (λ r, prog_bind f (k r))
  | Find q k => Find q (λ r, prog_bind f (k r))
  | InsertOne d k => InsertOne d (λ r, prog_bind f (k r))
  | UpdateOne q upd k => UpdateOne q upd (λ r, prog_bind f (k r))
  | DeleteOne q k => DeleteOne q (λ r, prog_bind f (k r))
  | GenSalt k => GenSalt (λ r, prog_bind f (k r))
  | HashPw pw salt k => HashPw pw salt (λ r, prog_bind f (k r))
  end.

#[global] Instance prog_ret : MRet prog := @Ret.
#[global] Instance prog_mbind : MBind prog := @prog_bind.

(** The calls as statements. *)
Definition find_one_call (q : query) : prog (option document) := FindOne q Ret.
Definition find_call (q : query) : prog (list document) := Find q Ret.
Definition insert_one_call (d : document) : prog ObjectId := InsertOne d Ret.
Definition update_one_call (q : query) (upd : document) : prog unit :=
  UpdateOne q upd Ret.
Definition delete_one_call (q : query) : prog Z := DeleteOne q Ret.
Definition gensalt : prog string := GenSalt Ret.
Definition hashpw (pw salt : string) : prog string := HashPw pw salt Ret.

(** [if doc:] on the result of [find_one]: [None] and [{}] are falsy. *)
Definition doc_truthy (o : option document) : bool :=
  match o with
  | None => false
  | Some d => negb (bool_decide (d = ∅))
  end.

(** [d[k]]. *)
Definition getitem (d : document) (k : string) : prog value :=
  match d !! k with
  | Some v => Ret v
  | None => Raise (KeyError k)
  end.

(** [user["_id"] = str(user["_id"])]. *)
Definition stringify_id (user : document) : prog document :=
  v ← getitem user "_id";
  Ret (<["_id" := VStr (py_str v)]> user).

(** The same statement on the result of [find_one], which may be [None]
    (subscripting [None] raises [TypeError]). *)
Definition stringify_id_opt (user : option document) : prog document :=
  match user with
  | Some d => stringify_id d
  | None => Raise TypeError
  end.

(** [for user in users: user["_id"] = str(user["_id"])]. *)
Fixpoint stringify_ids (users : list document) : prog (list document) :=
  match users with
  | [] => Ret []
  | user :: rest =>
      user' ← stringify_id user;
      rest' ← stringify_ids rest;
      Ret (user' :: rest')
  end.

(** [ObjectId(user_id)], which raises [InvalidId] on a malformed string. *)
Definition ObjectId_call (user_id : string) : prog ObjectId :=
  match ObjectId_new user_id with
  | Some oid => Ret oid
  | None => Raise InvalidId
  end.

(** ** routes/user_routes.py *)

(** [hash_password]: a salt from [bcrypt.gensalt()], then [bcrypt.hashpw]. *)
Definition hash_password (password : string) : prog string :=
  salt ← gensalt;
  hashpw password salt.

Definition get_all_users : prog envelope :=
  users ← find_call [];
  users ← stringify_ids users;
  Ret (success_response (DataList users)
         ("Se encontraron " +:+ pretty (length users) +:+ " usuarios") 200).

Definition create_user (user : UserCreate) : prog envelope :=
  existing_user ← find_one_call [("email", CEq (VStr (email user)))];
  if doc_truthy existing_user then
    Raise (HTTP (AlreadyExistsException "Usuario"
                   (Some ("email " +:+ email user))))
  else
    let user_dict := model_dump user in
    (* user_dict.pop("password") yields the password and removes the key *)
    hashed ← hash_password (password user);
    let user_dict :=
      <["hashed_password" := VStr hashed]> (delete "password" user_dict) in
    inserted_id ← insert_one_call user_dict;
    created_user ← find_one_call [("_id", CEq (VOid inserted_id))];
    created_user ← stringify_id_opt created_user;
    Ret (success_response (DataDoc created_user)
           "Usuario creado exitosamente" 201).

Definition get_user (user_id : string) : prog envelope :=
  if negb (is_valid user_id) then
    Raise (HTTP (BadRequestException "ID de usuario inválido" None
                   (Some user_id)))
  else
    oid ← ObjectId_call user_id;
    user ← find_one_call [("_id", CEq (VOid oid))];
    if negb (doc_truthy user) then
      Raise (HTTP (NotFoundException "Usuario" (Some user_id)))
    else
      user ← stringify_id_opt user;
      Ret (success_response (DataDoc user)
             "Usuario obtenido exitosamente" 200).

Definition update_user (user_id : string) (user_update : UserUpdate)
  : prog envelope :=
  if negb (is_valid user_id) then
    Raise (HTTP (BadRequestException "ID de usuario inválido" None
                   (Some user_id)))
  else
    oid ← ObjectId_call user_id;
    existing_user ← find_one_call [("_id", CEq (VOid oid))];
    if negb (doc_truthy existing_user) then
      Raise (HTTP (NotFoundException "Usuario" (Some user_id)))
    else
      email_exists ← find_one_call
        [("email", CEq (VStr (email user_update))); ("_id", CNe (VOid oid))];
      if doc_truthy email_exists then
        Raise (HTTP (AlreadyExistsException "Usuario"
                       (Some ("email " +:+ email user_update))))
      else
        let update_dict := model_dump user_update in
        (* update_dict.pop("password") *)
        hashed ← hash_password (password user_update);
        let update_dict :=
          <["hashed_password" := VStr hashed]> (delete "password" update_dict) in
        _ ← update_one_call [("_id", CEq (VOid oid))] update_dict;
        updated_user ← find_one_call [("_id", CEq (VOid oid))];
        updated_user ← stringify_id_opt updated_user;
        Ret (success_response (DataDoc updated_user)
               "Usuario actualizado exitosamente" 200).

Definition delete_user (user_id : string) : prog envelope :=
  if negb (is_valid user_id) then
    Raise (HTTP (BadRequestException "ID de usuario inválido" None
                   (Some user_id)))
  else
    oid ← ObjectId_call user_id;
    existing_user ← find_one_call [("_id", CEq (VOid oid))];
    if negb (doc_truthy existing_user) then
      Raise (HTTP (NotFoundException "Usuario" (Some user_id)))
    else
      deleted_count ← delete_one_call [("_id", CEq (VOid oid))];
      Ret (success_response
             (DataDoc {[ "deleted_count" := VInt deleted_count ]})
             "Usuario eliminado exitosamente" 200).

(** ** Running a handler *)

(** One entry per call made to the collection or to [bcrypt]. *)
Inductive call : Type :=
| CFindOne (q : query)
| CFind (q : query)
| CInsertOne (d : document)
| CUpdateOne (q : query) (upd : document)
| CDeleteOne (q : query)
| CGenSalt
| CHashPw (pw salt : string).

Definition is_store_call (c : call) : bool :=
  match c with
  | CGenSalt | CHashPw _ _ => false
  | _ => true
  end.

(** The collection and the calls made so far, newest first. *)
Record world : Type := mkWorld {
  users : collection;
  trace : list call
}.

(** What the libraries supply: the salt drawn by [bcrypt.gensalt()], the
    function [bcrypt.hashpw], and the key generated for an inserted
    document.  Salt and key are indexed by the number of calls made before
    they are drawn.  [bcrypt.hashpw] does not accept every password (bcrypt 5
    raises [ValueError] on more than 72 bytes, and neither [UserCreate] nor
    [UserUpdate] bounds the length from above): [None] is that refusal. *)
Record environment : Type := mkEnv {
  next_salt : nat → string;
  bcrypt_hashpw : string → string → option string;
  next_ObjectId : nat → ObjectId
}.

Definition store_calls (w : world) : nat :=
  length (List.filter is_store_call (trace w)).

Definition bcrypt_calls (w : world) : nat :=
  length (List.filter (λ c, negb (is_store_call c)) (trace w)).

(** [exec others E p w] runs [p].  Every store call is an [await]: before the
    collection serves it, the requests running concurrently have changed the
    collection by [others n], where [n] is the number of calls logged so
    far. *)
Fixpoint exec {A : Type} (others : nat → collection → collection)
  (E : environment) (p : prog A) (w : world) : (exn + A) * world :=
  let now := length (trace w) in
  let c := others now (users w) in
  match p with
  | Ret a => (inr a, w)
  | Raise x => (inl x, w)
  | FindOne q k =>
      exec others E (k (find_one q c)) (mkWorld c (CFindOne q :: trace w))
  | Find q k =>
      exec others E (k (find q c)) (mkWorld c (CFind q :: trace w))
  | InsertOne d k =>
      let oid := next_ObjectId E now in
      match insert_one d oid c with
      | Some c' => exec others E (k oid) (mkWorld c' (CInsertOne d :: trace w))
      | None => (inl DuplicateKeyError, mkWorld c (CInsertOne d :: trace w))
      end
  | UpdateOne q upd k =>
      exec others E (k tt)
        (mkWorld (update_one q upd c) (CUpdateOne q upd :: trace w))
  | DeleteOne q k =>
      let '(n, c') := delete_one q c in
      exec others E (k n) (mkWorld c' (CDeleteOne q :: trace w))
  | GenSalt k =>
      exec others E (k (next_salt E now)) (mkWorld (users w) (CGenSalt :: trace w))
  | HashPw pw salt k =>
      match bcrypt_hashpw E pw salt with
      | Some hashed =>
          exec others E (k hashed)
            (mkWorld (users w) (CHashPw pw salt :: trace w))
      | None =>
          (inl HashValueError, mkWorld (users w) (CHashPw pw salt :: trace w))
      end
  end.

(** No concurrent request. *)
Definition alone (n : nat) (c : collection) : collection := c.

(** A handler running on its own. *)
Definition run {A : Type} (E : environment) (p : prog A) (w : world)
  : (exn + A) * world :=
  exec alone E p w.

(** ** Sequences of requests *)

Inductive request : Type :=
| List_
| Create (user : UserCreate)
| Get (user_id : string)
| Update (user_id : string) (user_update : UserUpdate)
| Delete (user_id : string).

Definition handler (r : request) : prog envelope :=
  match r with
  | List_ => get_all_users
  | Create user => create_user user
  | Get user_id => get_user user_id
  | Update user_id user_update => update_user user_id user_update
  | Delete user_id => delete_user user_id
  end.

(** The requests of [rs] served one after the other. *)
Fixpoint serve (E : environment) (rs : list request) (w : world) : world :=
  match rs with
  | [] => w
  | r :: rs' => serve E rs' (run E (handler r) w).2
  end.

(** ** Sample data *)

Definition sample_oid (last : string) : ObjectId :=
  default (mkObjectId []) (ObjectId_new ("68eeafce05740b9d36aab3" +:+ last)).

(** In the sample environment [bcrypt.hashpw] refuses what bcrypt 5
    refuses: a password of more than 72 bytes. *)
Definition sample_env : environment :=
  {| next_salt := λ n, "$2b$12$salt" +:+ pretty n;
     bcrypt_hashpw := λ pw salt,
       if (72 <? String.length pw)%nat then None
       else Some (salt +:+ "#" +:+ pw);
     next_ObjectId := λ n, sample_oid (pretty (10 + n)%nat) |}.

Definition juan : UserCreate :=
  mkUser "Juan Pérez" "juan@email.com" "secret1".

Definition maria : UserCreate :=
  mkUser "María García" "maria@email.com" "secret2".

(** A password of 73 bytes, which [UserCreate] and [UserUpdate] accept. *)
Definition long_password : string :=
  "0123456789012345678901234567890123456789012345678901234567890123456789012".

Definition ana : UserCreate :=
  mkUser "Ana Ruiz" "ana@email.com" long_password.

Definition juan_doc : document :=
  {[ "name" := VStr "Juan Pérez";
     "email" := VStr "juan@email.com";
     "hashed_password" := VStr "$2b$12$stored" ]}.

Definition one_user : world :=
  mkWorld [(sample_oid "07", juan_doc)] [].

Definition empty_world : world := mkWorld [] [].

Definition maria_doc : document :=
  {[ "name" := VStr "María García";
     "email" := VStr "maria@email.com";
     "hashed_password" := VStr "$2b$12$other" ]}.

Definition two_users : world :=
  mkWorld [(sample_oid "07", juan_doc); (sample_oid "08", maria_doc)] [].

(** Between the existence check and the delete, another request removes
    every document. *)
Definition concurrent_delete (n : nat) (c : collection) : collection :=
  match n with
  | O => c
  | S _ => []
  end.

(** The dictionary, or the list of dictionaries, carried by a result. *)
Definition data_doc (r : exn + envelope) : option document :=
  match r with
  | inr resp => match data resp with DataDoc d => Some d | DataList _ => None end
  | inl _ => None
  end.

Definition data_list (r : exn + envelope) : option (list document) :=
  match r with
  | inr resp => match data resp with DataList l => Some l | DataDoc _ => None end
  | inl _ => None
  end.

(** Field [k] of the dictionary carried by a result, and of the first
    dictionary of a list result. *)
Definition doc_field (k : string) (r : exn + envelope) : option value :=
  match data_doc r with
  | Some d => d !! k
  | None => None
  end.

Definition first_field (k : string) (r : exn + envelope) : option value :=
  match data_list r with
  | Some (d :: _) => d !! k
  | _ => None
  end.

(** The classified exception of a result, if it is one. *)
Definition raised (r : exn + envelope) : option CustomHTTPException :=
  match r with
  | inl (HTTP e) => Some e
  | _ => None
  end.

(** The dictionary written by [create_user] and [update_user]: the dumped
    model with [password] replaced by [hashed_password]. *)
Definition user_fields (u : UserCreate) (hashed : string) : document :=
  <["hashed_password" := VStr hashed]> (delete "password" (model_dump u)).

(** The three queries of the handlers. *)
Abbreviation by_email e := [("email", CEq (VStr e))].
Abbreviation by_id oid := [("_id", CEq (VOid oid))].
Abbreviation by_email_not_id e oid :=
  [("email", CEq (VStr e)); ("_id", CNe (VOid oid))].

Definition invalid_id (user_id : string) : exn :=
  HTTP (BadRequestException "ID de usuario inválido" None (Some user_id)).
Definition not_found (user_id : string) : exn :=
  HTTP (NotFoundException "Usuario" (Some user_id)).
Definition email_taken (e : string) : exn :=
  HTTP (AlreadyExistsException "Usuario" (Some ("email " +:+ e))).

(** What [bytes.fromhex] tolerates: hexadecimal digits and whitespace. *)
Definition is_hex_or_space (c : ascii) : bool := is_hex c || is_space c.

(** ** Further definitions *)

(** Number of characters of [s] that satisfy [p]. *)
Fixpoint count_chars (p : ascii → bool) (s : string) : nat :=
  match s with
  | EmptyString => O
  | String c rest => ((if p c then 1 else 0) + count_chars p rest)%nat
  end.

(** The keys the driver generates are twelve bytes long. *)
Definition twelve_bytes (o : ObjectId) : Prop := length (binary o) = 12%nat.

(** [PyObjectId.validate] of models/user.py: [ValueError("Invalid ObjectId")]
    unless [ObjectId.is_valid(v)], then [ObjectId(v)]. *)
Inductive validate_exn : Type :=
| ValueError (msg : string)
| ValidateInvalidId.

Definition PyObjectId_validate (v : string) : validate_exn + ObjectId :=
  if negb (is_valid v) then inl (ValueError "Invalid ObjectId")
  else match ObjectId_new v with
       | Some o => inr o
       | None => inl ValidateInvalidId
       end.

(** A result answers with status [ok] on success and with one of the
    statuses [errs] when it is a classified error. *)
Definition answers (ok : Z) (errs : list Z) (r : exn + envelope) : Prop :=
  match r with
  | inr resp => success resp = true ∧ statusCode resp = ok
  | inl (HTTP e) => status_code e ∈ errs
  | inl _ => True
  end.

(** The fields written by Create and Update. *)
Definition user_keys : gset string := {[ "name"; "email"; "hashed_password" ]}.

(** Every stored document has exactly the fields name, email and
    hashed_password. *)
Definition shaped (c : collection) : Prop := ∀ r, r ∈ c → dom r.2 = user_keys.

(** Another request appends the document [x] just before the call with
    number [n] is served. *)
Definition inserts_at (n : nat) (x : ObjectId * document)
  (t : nat) (c : collection) : collection :=
  if (t =? n)%nat then c ++ [x] else c.

(** Another request deletes the document under [oid] just before the call
    with number [n] is served. *)
Definition deletes_at (n : nat) (oid : ObjectId)
  (t : nat) (c : collection) : collection :=
  if (t =? n)%nat then (delete_one (by_id oid) c).2 else c.

(** ** config/database.py and the lifespan of main.py *)

Module database.

(** [os.getenv("MONGODB_URL", "mongodb://localhost:27017/userdb")]: the
    value of the variable when it is set, the default otherwise. *)
Definition MONGODB_URL (getenv : option string) : string :=
  default "mongodb://localhost:27017/userdb" getenv.

(** What the driver makes of a URL: whether [AsyncIOMotorClient(url)]
    builds a client (it raises on a URL it cannot use), and the default
    database the URL names, which [client.get_database()] returns; for a
    URL that names none, [get_database()] raises ConfigurationError. *)
Record driver : Type := mkDriver {
  accepts : string → bool;
  default_database : string → option string
}.

Inductive connect_exn : Type :=
| ClientError
| ConfigurationError.

(** An [AsyncIOMotorClient] object. *)
Record MotorClient : Type := mkClient {
  url : string;
  closed : bool
}.

(** The handle returned by [client.get_database()]; it refers to its
    client, here by the client's position among the objects created. *)
Record Database : Type := mkDatabase {
  db_client : nat;
  db_name : string
}.

(** The client objects created so far, the module globals [client] and
    [database] (a client is referred to by its position), and the lines
    printed. *)
Record state : Type := mkState {
  clients : list MotorClient;
  client : option nat;
  database : option Database;
  printed : list string
}.

(** The module as loaded: [client = None], [database = None]. *)
Definition initial : state := mkState [] None None [].

(** [connect_to_mongo]: the global [client] is assigned before
    [client.get_database()] is called, so an exception of that call leaves
    the new client in [client] and [database] as it was, and the line is
    not printed. *)
Definition connect_to_mongo (D : driver) (mongodb_url : string) (s : state)
  : option connect_exn * state :=
  if negb (accepts D mongodb_url) then (Some ClientError, s)
  else
    let new := length (clients s) in
    let created := clients s ++ [mkClient mongodb_url false] in
    match default_database D mongodb_url with
    | None =>
        (Some ConfigurationError,
         mkState created (Some new) (database s) (printed s))
    | Some name =>
        (None,
         mkState created (Some new) (Some (mkDatabase new name))
           (printed s ++ ["✅ Conectado a MongoDB: " +:+ mongodb_url]))
    end.

(** [client.close()] on the object at position [i]. *)
Definition close_client (i : nat) (cs : list MotorClient) : list MotorClient :=
  alter (λ c, mkClient (url c) true) i cs.

(** [if client:] holds for every client object, and fails for [None]. *)
Definition close_mongo_connection (s : state) : state :=
  match client s with
  | Some i =>
      mkState (close_client i (clients s)) (client s) (database s)
        (printed s ++ ["❌ Conexión a MongoDB cerrada"])
  | None => s
  end.

Definition get_database (s : state) : option Database := database s.

(** The two calls that change the globals. *)
Inductive lifecycle_call : Type :=
| Connect
| Close.

(** One call; an exception of [connect_to_mongo] goes to the caller and the
    globals stay as the call left them. *)
Definition lifecycle_step (D : driver) (mongodb_url : string)
  (op : lifecycle_call) (s : state) : state :=
  match op with
  | Connect => (connect_to_mongo D mongodb_url s).2
  | Close => close_mongo_connection s
  end.

(** The calls of [ops], one after the other. *)
Definition lifecycle (D : driver) (mongodb_url : string)
  (ops : list lifecycle_call) (s : state) : state :=
  fold_left (λ s op, lifecycle_step D mongodb_url op s) ops s.

(** [lifespan] of main.py: the part before [yield] and the part after it;
    the second component collects the lines given to [logger.info].  An
    exception of [connect_to_mongo] ends the startup part before its line
    is logged. *)
Definition lifespan_startup (D : driver) (mongodb_url : string)
  (a : state * list string) : option connect_exn * (state * list string) :=
  match connect_to_mongo D mongodb_url a.1 with
  | (None, s) => (None, (s, a.2 ++ ["🚀 Aplicación iniciada"]))
  | (Some x, s) => (Some x, (s, a.2))
  end.

Definition lifespan_shutdown (a : state * list string) : state * list string :=
  (close_mongo_connection a.1, a.2 ++ ["👋 Aplicación finalizada"]).

(** The whole life of the application: the shutdown part runs only after a
    startup part that raised nothing. *)
Definition lifespan (D : driver) (mongodb_url : string)
  (a : state * list string) : option connect_exn * (state * list string) :=
  match lifespan_startup D mongodb_url a with
  | (None, up) => (None, lifespan_shutdown up)
  | (Some x, up) => (Some x, up)
  end.

(** Whether the client the handle refers to is open. *)
Definition handle_open (s : state) (d : Database) : bool :=
  match clients s !! db_client d with
  | Some c => negb (closed c)
  | None => false
  end.

(** The global [client], when set, is the client created last. *)
Definition client_is_last (s : state) : Prop :=
  match client s with
  | Some i => S i = length (clients s)
  | None => True
  end.

(** The globals refer to the client created last, or are both [None] while
    no client exists. *)
Definition coherent (s : state) : Prop :=
  match client s, database s with
  | None, None => clients s = []
  | Some i, Some d => db_client d = i ∧ S i = length (clients s)
  | _, _ => False
  end.

(** The text of a URL after the first [/] that follows the scheme, up to
    the options: the database a URL names. *)
Fixpoint after_slash (s : string) : option string :=
  match s with
  | EmptyString => None
  | String c rest => if Ascii.eqb c "/" then Some rest else after_slash rest
  end.

Fixpoint before_options (s : string) : string :=
  match s with
  | EmptyString => EmptyString
  | String c rest =>
      if Ascii.eqb c "?" then EmptyString else String c (before_options rest)
  end.

(** A driver for the examples: it takes the URLs of scheme [mongodb://]. *)
Definition sample_driver : driver :=
  {| accepts := String.prefix "mongodb://";
     default_database := λ mongodb_url,
       match after_slash (String.substring 10 (String.length mongodb_url)
                            mongodb_url) with
       | Some db =>
           if String.eqb (before_options db) EmptyString then None
           else Some (before_options db)
       | None => None
       end |}.

End database.

(** The calls that write to the collection, and the calls that read it. *)
Definition is_write (c : call) : bool :=
  match c with
  | CInsertOne _ | CUpdateOne _ _ | CDeleteOne _ => true
  | _ => false
  end.

Definition is_read (c : call) : bool :=
  match c with
  | CFindOne _ | CFind _ => true
  | _ => false
  end.

(** ** Tactics *)

Arguments selects : simpl never.
Arguments has_key : simpl never.
Arguments has_email : simpl never.
Arguments to_doc : simpl never.

(** Case analysis on every comparison of character codes in the goal. *)
Ltac range_cases :=
  repeat match goal with
    | |- context [(?a <=? ?b)%N] => destruct (N.leb_spec a b)
    | |- context [(?a =? ?b)%N] => destruct (N.eqb_spec a b)
    end;
  simpl in *; try done; try lia.

(** Unfolds the monadic plumbing of handler programs. *)
Ltac step :=
  cbn [mbind mret prog_mbind prog_ret prog_bind exec
       find_one_call find_call insert_one_call update_one_call
       delete_one_call gensalt hashpw hash_password users trace negb];
  unfold alone.

(** * Properties *)

(** ** Identifiers *)

Example is_valid_lower : is_valid "68eeafce05740b9d36aab307" = true.
Proof. reflexivity. Qed.

Example is_valid_upper : is_valid "68EEAFCE05740B9D36AAB307" = true.
Proof. reflexivity. Qed.

Example is_valid_short : is_valid "123abc" = false.
Proof. reflexivity. Qed.

Example is_valid_blank_tail : is_valid "68eeafce05740b9d36aab3  " = true.
Proof. reflexivity. Qed.

Example str_of_upper :
  str <$> ObjectId_new "68EEAFCE05740B9D36AAB307"
  = Some "68eeafce05740b9d36aab307".
Proof. reflexivity. Qed.

Lemma is_valid_ObjectId_new s :
  is_valid s = true → ∃ oid, ObjectId_new s = Some oid.
Proof.
  unfold is_valid. destruct (negb (str_truthy s)); [done|].
  destruct (ObjectId_new s) as [oid|]; [eauto | done].
Qed.

Lemma ObjectId_new_is_valid s oid : ObjectId_new s = Some oid → is_valid s = true.
Proof.
  unfold is_valid. intros H. rewrite H.
  destruct s; [done | reflexivity].
Qed.

Lemma is_lower_hex_is_hex c : is_lower_hex c = true → is_hex c = true.
Proof.
  unfold is_lower_hex, is_hex, hex_value. cbv zeta.
  destruct (_ && _) eqn:E1; [done|].
  simpl. by intros ->.
Qed.

Lemma all_chars_impl (p q : ascii → bool) s :
  (∀ c, p c = true → q c = true) → all_chars p s = true → all_chars q s = true.
Proof.
  intros Hpq. induction s as [|c s IH]; simpl; [done|].
  rewrite !andb_true_iff. intros [? ?]. auto.
Qed.

Lemma lower_hex24_hex24 s : lower_hex24 s = true → hex24 s = true.
Proof.
  unfold lower_hex24, hex24. rewrite !andb_true_iff. intros [? ?].
  split; [done|]. eapply all_chars_impl; [apply is_lower_hex_is_hex | done].
Qed.

Lemma is_hex_not_space c : is_hex c = true → is_space c = false.
Proof.
  unfold is_hex, hex_value, is_space. cbv zeta.
  generalize (N_of_ascii c). intros n. range_cases.
Qed.

(** On digits only, [fromhex] succeeds exactly when their number is even. *)
Lemma fromhex_hex s :
  all_chars is_hex s = true →
  (Nat.even (String.length s) = true → is_Some (fromhex s)) ∧
  (∀ c, is_hex c = true → Nat.even (String.length s) = false →
        is_Some (fromhex (String c s))).
Proof.
  induction s as [|c1 s IH].
  - intros _. split; [by eexists | done].
  - cbn [all_chars]. rewrite andb_true_iff. intros [Hc1 Hs].
    destruct (IH Hs) as [IHe IHo]. split.
    + intros Hev. apply IHo; [done|].
      cbn [String.length] in Hev. rewrite Nat.even_succ in Hev.
      by rewrite <- Nat.negb_odd, Hev.
    + intros c Hc Hodd. cbn [fromhex]. rewrite (is_hex_not_space c Hc).
      unfold is_hex in Hc, Hc1.
      destruct (hex_value c); [|done]. destruct (hex_value c1); [|done].
      cbn [String.length] in Hodd. rewrite Nat.even_succ in Hodd.
      destruct IHe as [bs ->]; [by rewrite <- Nat.negb_odd, Hodd|].
      by eexists.
Qed.

Lemma hex24_is_valid s : hex24 s = true → is_valid s = true.
Proof.
  unfold hex24. rewrite andb_true_iff. intros [Hlen Hall].
  apply Nat.eqb_eq in Hlen.
  destruct (proj1 (fromhex_hex s Hall)) as [bs Hbs]; [by rewrite Hlen|].
  apply (ObjectId_new_is_valid s (mkObjectId bs)).
  unfold ObjectId_new. rewrite Hlen. simpl. by rewrite Hbs.
Qed.

Lemma fromhex_chars n s :
  (String.length s ≤ n)%nat → is_Some (fromhex s) →
  all_chars is_hex_or_space s = true.
Proof.
  revert s. induction n as [|n IH]; intros s Hlen Hsome.
  - destruct s; [done | simpl in Hlen; lia].
  - destruct s as [|c rest]; [done|].
    cbn [fromhex] in Hsome. cbn [all_chars]. unfold is_hex_or_space at 1.
    destruct (is_space c) eqn:Hsp.
    + rewrite orb_true_r. apply IH; [simpl in Hlen; lia | done].
    + unfold is_hex. destruct (hex_value c) as [top|] eqn:Hc;
        [|by destruct Hsome].
      destruct rest as [|c' rest']; [by destruct Hsome|].
      cbn [all_chars]. unfold is_hex_or_space at 1, is_hex.
      destruct (hex_value c') as [bot|]; [|by destruct Hsome].
      simpl. apply IH; [simpl in Hlen; lia|].
      destruct (fromhex rest'); [by eexists | by destruct Hsome].
Qed.

Lemma is_valid_shape s :
  is_valid s = true →
  String.length s = 24%nat ∧ all_chars is_hex_or_space s = true.
Proof.
  intros [oid Hoid]%is_valid_ObjectId_new. unfold ObjectId_new in Hoid.
  destruct (String.length s =? 24)%nat eqn:Hlen; [|done].
  apply Nat.eqb_eq in Hlen. split; [done|].
  apply (fromhex_chars 24); [lia|].
  destruct (fromhex s); [by eexists | done].
Qed.

(** ** The collection *)

Lemma to_doc_id r : to_doc r !! "_id" = Some (VOid r.1).
Proof. apply lookup_insert_eq. Qed.

Lemma to_doc_field r k : k ≠ "_id" → to_doc r !! k = r.2 !! k.
Proof. intros Hk. unfold to_doc. by rewrite lookup_insert_ne. Qed.

Lemma to_doc_nonempty r : to_doc r ≠ ∅.
Proof. apply insert_non_empty. Qed.

Lemma selects_by_id oid r : selects (by_id oid) r = has_key oid r.
Proof.
  unfold selects, matches, holds, field_eqb, has_key. simpl.
  rewrite to_doc_id, andb_true_r. apply bool_decide_ext. naive_solver.
Qed.

Lemma selects_by_email e r : selects (by_email e) r = has_email e r.
Proof.
  unfold selects, matches, holds, field_eqb, has_email. simpl.
  by rewrite to_doc_field, andb_true_r.
Qed.

Lemma selects_by_email_not_id e oid r :
  selects (by_email_not_id e oid) r = has_email e r && negb (has_key oid r).
Proof.
  unfold selects, matches, holds, field_eqb, has_email, has_key.
  simpl. rewrite to_doc_field, to_doc_id, andb_true_r by done.
  f_equal. f_equal. apply bool_decide_ext. naive_solver.
Qed.

Lemma selects_all r : selects [] r = true.
Proof. reflexivity. Qed.

Lemma find_ext {A} (f g : A → bool) (l : list A) :
  (∀ x, f x = g x) → List.find f l = List.find g l.
Proof.
  intros Hfg. induction l as [|x l IH]; simpl; [done|].
  by rewrite Hfg, IH.
Qed.

Lemma find_one_by_id oid c : find_one (by_id oid) c = to_doc <$> by_key oid c.
Proof.
  unfold find_one, by_key. f_equal. apply find_ext, selects_by_id.
Qed.

Lemma find_one_by_email e c :
  find_one (by_email e) c = to_doc <$> List.find (has_email e) c.
Proof. unfold find_one. f_equal. apply find_ext, selects_by_email. Qed.

Lemma find_one_by_email_not_id e oid c :
  find_one (by_email_not_id e oid) c
  = to_doc <$> List.find (λ r, has_email e r && negb (has_key oid r)) c.
Proof.
  unfold find_one. f_equal. apply find_ext. intros r.
  apply selects_by_email_not_id.
Qed.

Lemma find_all c : find [] c = to_doc <$> c.
Proof.
  unfold find. f_equal. induction c as [|r c IH]; simpl; [done|].
  by rewrite IH.
Qed.

Lemma doc_truthy_fmap o : doc_truthy (to_doc <$> o) = bool_decide (is_Some o).
Proof.
  destruct o as [r|]; simpl.
  - rewrite bool_decide_eq_false_2 by apply to_doc_nonempty. done.
  - done.
Qed.

Lemma returned_to_doc r : <["_id" := VStr (str r.1)]> (to_doc r) = returned r.
Proof. unfold to_doc, returned. apply insert_insert_eq. Qed.

Lemma stringify_id_to_doc r : stringify_id (to_doc r) = Ret (returned r).
Proof.
  unfold stringify_id, getitem. rewrite to_doc_id. step. simpl.
  by rewrite returned_to_doc.
Qed.

Lemma stringify_ids_to_doc c :
  stringify_ids (to_doc <$> c) = Ret (returned <$> c).
Proof.
  induction c as [|r c IH]; [done|].
  cbn [fmap list_fmap stringify_ids]. rewrite stringify_id_to_doc.
  step. fold (@fmap list _ _ _ to_doc c). rewrite IH. done.
Qed.

(** ** The handlers, call by call *)

Lemma ObjectId_call_valid user_id oid :
  ObjectId_new user_id = Some oid → ObjectId_call user_id = Ret oid.
Proof. unfold ObjectId_call. by intros ->. Qed.

(** A handler that validates its identifier stops at once on a malformed
    one. *)
Section reads.

Context (E : environment).

Lemma get_user_invalid user_id w :
  is_valid user_id = false →
  run E (get_user user_id) w = (inl (invalid_id user_id), w).
Proof. intros H. unfold run, get_user. by rewrite H. Qed.

Lemma update_user_invalid user_id user_update w :
  is_valid user_id = false →
  run E (update_user user_id user_update) w = (inl (invalid_id user_id), w).
Proof. intros H. unfold run, update_user. by rewrite H. Qed.

Lemma delete_user_invalid user_id w :
  is_valid user_id = false →
  run E (delete_user user_id) w = (inl (invalid_id user_id), w).
Proof. intros H. unfold run, delete_user. by rewrite H. Qed.

Lemma get_user_missing user_id oid w :
  ObjectId_new user_id = Some oid →
  by_key oid (users w) = None →
  run E (get_user user_id) w
  = (inl (not_found user_id),
     mkWorld (users w) (CFindOne (by_id oid) :: trace w)).
Proof.
  intros Hoid Hkey. unfold run, get_user.
  rewrite (ObjectId_new_is_valid _ _ Hoid), (ObjectId_call_valid _ _ Hoid).
  step. rewrite find_one_by_id, Hkey. done.
Qed.

Lemma get_user_found user_id oid r w :
  ObjectId_new user_id = Some oid →
  by_key oid (users w) = Some r →
  run E (get_user user_id) w
  = (inr (success_response (DataDoc (returned r))
            "Usuario obtenido exitosamente" 200),
     mkWorld (users w) (CFindOne (by_id oid) :: trace w)).
Proof.
  intros Hoid Hkey. unfold run, get_user.
  rewrite (ObjectId_new_is_valid _ _ Hoid), (ObjectId_call_valid _ _ Hoid).
  step. rewrite find_one_by_id, Hkey.
  rewrite doc_truthy_fmap. cbn [fmap option_fmap option_map stringify_id_opt].
  rewrite bool_decide_eq_true_2 by eauto. cbn [negb].
  rewrite stringify_id_to_doc. done.
Qed.

Lemma get_all_users_run w :
  run E get_all_users w
  = (inr (success_response (DataList (returned <$> users w))
            ("Se encontraron " +:+ pretty (length (users w)) +:+ " usuarios")
            200),
     mkWorld (users w) (CFind [] :: trace w)).
Proof.
  unfold run, get_all_users. step.
  rewrite find_all, stringify_ids_to_doc. step.
  by rewrite length_fmap.
Qed.

End reads.

(** ** Writes to the collection *)

Lemma by_key_Some oid c r : by_key oid c = Some r → r ∈ c ∧ r.1 = oid.
Proof.
  intros [Hin Hk]%find_some. split; [by apply list_elem_of_In|].
  unfold has_key in Hk. by apply bool_decide_eq_true in Hk.
Qed.

Lemma by_key_None oid c : by_key oid c = None ↔ oid ∉ c.*1.
Proof.
  unfold by_key. induction c as [|r c IH]; simpl.
  - split; [intros _; apply not_elem_of_nil | done].
  - unfold has_key at 1. rewrite not_elem_of_cons. case_bool_decide.
    + split; [done | intros [? _]; congruence].
    + rewrite IH. split; [intros ?; split; [congruence | done] | by intros [_ ?]].
Qed.

Lemma by_key_app_new oid d c :
  oid ∉ c.*1 → by_key oid (c ++ [(oid, d)]) = Some (oid, d).
Proof.
  intros Hnew. unfold by_key. induction c as [|r c IH]; simpl.
  - unfold has_key. simpl. by rewrite bool_decide_eq_true_2.
  - simpl in Hnew. apply not_elem_of_cons in Hnew as [Hne Hnew].
    unfold has_key at 1. rewrite bool_decide_eq_false_2 by congruence.
    by apply IH.
Qed.

Lemma insert_one_new d oid c :
  oid ∉ c.*1 → insert_one d oid c = Some (c ++ [(oid, d)]).
Proof. intros H. unfold insert_one. by rewrite bool_decide_eq_false_2. Qed.

Lemma insert_one_dup d oid c : oid ∈ c.*1 → insert_one d oid c = None.
Proof. intros H. unfold insert_one. by rewrite bool_decide_eq_true_2. Qed.

Lemma update_one_keys q upd c : (update_one q upd c).*1 = c.*1.
Proof.
  induction c as [|r c IH]; [done|]. cbn [update_one].
  destruct (selects q r); rewrite !fmap_cons; [done | by rewrite IH].
Qed.

Lemma update_one_length q upd c : length (update_one q upd c) = length c.
Proof.
  induction c as [|r c IH]; simpl; [done|].
  destruct (selects q r); simpl; [done | by rewrite IH].
Qed.

Lemma by_key_update_one oid upd c :
  by_key oid (update_one (by_id oid) upd c)
  = (λ r, (r.1, upd ∪ r.2)) <$> by_key oid c.
Proof.
  unfold by_key. induction c as [|r c IH]; simpl; [done|].
  rewrite selects_by_id. destruct (has_key oid r) eqn:Hk; simpl.
  - unfold has_key in *. simpl. by rewrite Hk.
  - by rewrite Hk.
Qed.

Lemma by_key_update_one_ne oid oid' upd c :
  oid' ≠ oid →
  by_key oid' (update_one (by_id oid) upd c) = by_key oid' c.
Proof.
  intros Hne. unfold by_key. induction c as [|r c IH]; simpl; [done|].
  rewrite selects_by_id. destruct (has_key oid r) eqn:Hk; simpl.
  - unfold has_key in *. simpl. apply bool_decide_eq_true in Hk.
    by rewrite !bool_decide_eq_false_2 by congruence.
  - by rewrite IH.
Qed.

Lemma update_one_missing oid upd c :
  by_key oid c = None → update_one (by_id oid) upd c = c.
Proof.
  unfold by_key. induction c as [|r c IH]; simpl; [done|].
  rewrite selects_by_id. destruct (has_key oid r); [done|].
  intros H. by rewrite IH.
Qed.

Lemma elem_of_update_one q upd c r' :
  r' ∈ update_one q upd c →
  r' ∈ c ∨ ∃ r, r ∈ c ∧ selects q r = true ∧ r' = (r.1, upd ∪ r.2).
Proof.
  induction c as [|r c IH]; simpl; [by left|].
  destruct (selects q r) eqn:Hsel.
  - intros [->|Hin]%elem_of_cons.
    + right. exists r. split; [left | done].
    + left. by right.
  - intros [->|Hin]%elem_of_cons; [left; left|].
    destruct (IH Hin) as [?|(r0 & ? & ? & ?)].
    + left. by right.
    + right. exists r0. split; [by right | done].
Qed.

Lemma delete_one_missing oid c :
  by_key oid c = None → delete_one (by_id oid) c = (0, c).
Proof.
  unfold by_key. induction c as [|r c IH]; simpl; [done|].
  rewrite selects_by_id. destruct (has_key oid r); [done|].
  intros H. by rewrite IH.
Qed.

Lemma delete_one_found oid c r :
  by_key oid c = Some r → (delete_one (by_id oid) c).1 = 1.
Proof.
  unfold by_key. induction c as [|r0 c IH]; simpl; [done|].
  rewrite selects_by_id. destruct (has_key oid r0); [done|].
  intros H. specialize (IH H). by destruct (delete_one (by_id oid) c).
Qed.

Lemma delete_one_sublist q c : sublist (delete_one q c).2 c.
Proof.
  induction c as [|r c IH]; simpl; [done|].
  destruct (selects q r); simpl.
  - by apply sublist_cons.
  - destruct (delete_one q c) as [n c']. simpl in *. by apply sublist_skip.
Qed.

Lemma delete_one_gone oid c :
  unique_ids c → by_key oid (delete_one (by_id oid) c).2 = None.
Proof.
  unfold unique_ids. induction c as [|r c IH]; [done|].
  cbn [delete_one]. rewrite fmap_cons, selects_by_id.
  intros [Hr Hc]%NoDup_cons.
  unfold has_key at 1. case_bool_decide as Hk.
  - apply by_key_None. by subst oid.
  - specialize (IH Hc). destruct (delete_one (by_id oid) c) as [n c'].
    unfold by_key in *. simpl in *. unfold has_key at 1.
    by rewrite bool_decide_eq_false_2.
Qed.

Lemma delete_one_other oid oid' c :
  oid' ≠ oid →
  by_key oid' (delete_one (by_id oid) c).2 = by_key oid' c.
Proof.
  intros Hne. unfold by_key. induction c as [|r c IH]; simpl; [done|].
  rewrite selects_by_id. destruct (has_key oid r) eqn:Hk; simpl.
  - apply bool_decide_eq_true in Hk.
    unfold has_key at 2. rewrite bool_decide_eq_false_2; [done | congruence].
  - destruct (delete_one (by_id oid) c) as [n c']. simpl in *. by rewrite IH.
Qed.

(** ** Unique keys and unique emails *)

Lemma unique_ids_insert d oid c :
  unique_ids c → oid ∉ c.*1 → unique_ids (c ++ [(oid, d)]).
Proof.
  unfold unique_ids. intros Hc Hnew. rewrite fmap_app. simpl.
  apply NoDup_app. split; [done|]. split.
  - intros x Hx ->%list_elem_of_singleton. done.
  - apply NoDup_singleton.
Qed.

Lemma unique_ids_update q upd c : unique_ids c → unique_ids (update_one q upd c).
Proof. unfold unique_ids. by rewrite update_one_keys. Qed.

Lemma unique_ids_delete q c : unique_ids c → unique_ids (delete_one q c).2.
Proof.
  unfold unique_ids. intros H. eapply sublist_NoDup; [done|].
  apply fmap_sublist, delete_one_sublist.
Qed.

Lemma filter_length_le {A} (f g : A → bool) (l : list A) :
  (∀ x, x ∈ l → f x = true → g x = true) →
  (length (List.filter f l) ≤ length (List.filter g l))%nat.
Proof.
  induction l as [|x l IH]; simpl; [done|]. intros H.
  assert (length (List.filter f l) ≤ length (List.filter g l))%nat as IH'.
  { apply IH. intros y Hy. apply H. by right. }
  destruct (f x) eqn:Hf.
  - rewrite (H x) by (by left || done). simpl. lia.
  - destruct (g x); simpl; lia.
Qed.

Lemma filter_has_key_length oid c :
  unique_ids c → (length (List.filter (has_key oid) c) ≤ 1)%nat.
Proof.
  unfold unique_ids. induction c as [|r c IH]; [simpl; lia|].
  rewrite fmap_cons. cbn [List.filter].
  intros [Hr Hc]%NoDup_cons. unfold has_key at 1.
  case_bool_decide as Hk; [|by apply IH].
  simpl. assert (List.filter (has_key oid) c = []) as ->; [|simpl; lia].
  clear IH Hc. induction c as [|r' c IH]; [done|]. cbn [List.filter].
  rewrite fmap_cons in Hr. apply not_elem_of_cons in Hr as [Hne Hr].
  unfold has_key at 1. rewrite bool_decide_eq_false_2 by congruence.
  by apply IH.
Qed.

Lemma user_fields_email u hashed :
  user_fields u hashed !! "email" = Some (VStr (email u)).
Proof. unfold user_fields, model_dump. by simplify_map_eq. Qed.

Lemma user_fields_name u hashed :
  user_fields u hashed !! "name" = Some (VStr (name u)).
Proof. unfold user_fields, model_dump. by simplify_map_eq. Qed.

Lemma user_fields_hashed u hashed :
  user_fields u hashed !! "hashed_password" = Some (VStr hashed).
Proof. unfold user_fields. by simplify_map_eq. Qed.

Lemma user_fields_password u hashed : user_fields u hashed !! "password" = None.
Proof. unfold user_fields, model_dump. by simplify_map_eq. Qed.

Lemma user_fields_other u hashed k :
  k ≠ "name" → k ≠ "email" → k ≠ "hashed_password" →
  user_fields u hashed !! k = None.
Proof.
  intros. unfold user_fields, model_dump.
  destruct (decide (k = "password")); by simplify_map_eq.
Qed.

Lemma has_email_fields e oid u hashed :
  has_email e (oid, user_fields u hashed) = bool_decide (email u = e).
Proof.
  unfold has_email, field_eqb. simpl. rewrite user_fields_email.
  apply bool_decide_ext. naive_solver.
Qed.

Lemma has_email_set e oid u hashed d :
  has_email e (oid, user_fields u hashed ∪ d) = bool_decide (email u = e).
Proof.
  unfold has_email, field_eqb. simpl.
  rewrite (lookup_union_Some_l _ _ _ _ (user_fields_email u hashed)).
  apply bool_decide_ext. naive_solver.
Qed.

Lemma holders_nil e c : List.find (has_email e) c = None → holders e c = [].
Proof.
  unfold holders. induction c as [|r c IH]; simpl; [done|].
  destruct (has_email e r); [done | exact IH].
Qed.

Lemma unique_emails_insert u hashed oid c :
  List.find (has_email (email u)) c = None →
  unique_emails c → unique_emails (c ++ [(oid, user_fields u hashed)]).
Proof.
  intros Hfree Huniq e. unfold holders. rewrite List.filter_app, length_app.
  cbn [List.filter]. rewrite has_email_fields. case_bool_decide as He.
  - subst e. fold (holders (email u) c). rewrite (holders_nil _ _ Hfree).
    simpl. lia.
  - specialize (Huniq e). unfold holders in Huniq. simpl. lia.
Qed.

Lemma unique_emails_delete q c :
  unique_emails c → unique_emails (delete_one q c).2.
Proof.
  intros Huniq e. specialize (Huniq e).
  enough (length (holders e (delete_one q c).2) ≤ length (holders e c))%nat
    by lia.
  clear Huniq. unfold holders.
  induction c as [|r c IH]; [done|]. cbn [delete_one].
  destruct (selects q r); cbn [List.filter].
  - destruct (has_email e r); simpl; lia.
  - destruct (delete_one q c) as [n c']. simpl in *.
    destruct (has_email e r); simpl; lia.
Qed.

Lemma unique_emails_update u hashed oid c :
  unique_ids c →
  List.find (λ r, has_email (email u) r && negb (has_key oid r)) c = None →
  unique_emails c →
  unique_emails (update_one (by_id oid) (user_fields u hashed) c).
Proof.
  intros Hids Hfree Huniq e.
  destruct (decide (email u = e)) as [<-|Hne].
  - etrans; [|apply (filter_has_key_length oid),
                (unique_ids_update (by_id oid) (user_fields u hashed)), Hids].
    apply filter_length_le. intros r' Hin Hem.
    apply elem_of_update_one in Hin as [Hin|(r & Hin & Hsel & ->)].
    + apply list_elem_of_In in Hin.
      pose proof (find_none _ _ Hfree r' Hin) as Hr'. simpl in Hr'.
      rewrite Hem in Hr'. simpl in Hr'. by apply negb_false_iff.
    + by rewrite selects_by_id in Hsel.
  - etrans; [|apply (Huniq e)]. unfold holders. clear Hids Hfree Huniq.
    induction c as [|r c IH]; [done|]. cbn [update_one].
    destruct (selects (by_id oid) r); cbn [List.filter].
    + rewrite (surjective_pairing r) at 1. cbn [fst snd].
      rewrite has_email_set, bool_decide_eq_false_2 by done.
      destruct (has_email e r); simpl; lia.
    + destruct (has_email e r); simpl; lia.
Qed.

(** ** Create, Update and Delete, call by call *)

Section writes.

Context (E : environment).

Lemma create_user_conflict user w r :
  List.find (has_email (email user)) (users w) = Some r →
  run E (create_user user) w
  = (inl (email_taken (email user)),
     mkWorld (users w) (CFindOne (by_email (email user)) :: trace w)).
Proof.
  intros Hheld. unfold run, create_user. step.
  rewrite find_one_by_email, Hheld.
  rewrite doc_truthy_fmap, bool_decide_eq_true_2 by eauto. done.
Qed.

Lemma create_user_refused user w :
  let n := length (trace w) in
  let salt := next_salt E (S n) in
  List.find (has_email (email user)) (users w) = None →
  bcrypt_hashpw E (password user) salt = None →
  run E (create_user user) w
  = (inl HashValueError,
     mkWorld (users w)
       (CHashPw (password user) salt :: CGenSalt
          :: CFindOne (by_email (email user)) :: trace w)).
Proof.
  intros n salt Hfree Hhash. unfold run, create_user. step.
  rewrite find_one_by_email, Hfree.
  cbn [fmap option_fmap option_map doc_truthy]. step.
  subst n salt. cbn [length Nat.add] in Hhash |- *. by rewrite Hhash.
Qed.

Lemma create_user_run user hashed w :
  let n := length (trace w) in
  let salt := next_salt E (S n) in
  let oid := next_ObjectId E (3 + n) in
  let stored := user_fields user hashed in
  let calls := CInsertOne stored :: CHashPw (password user) salt :: CGenSalt
                 :: CFindOne (by_email (email user)) :: trace w in
  List.find (has_email (email user)) (users w) = None →
  bcrypt_hashpw E (password user) salt = Some hashed →
  run E (create_user user) w
  = if bool_decide (oid ∈ (users w).*1)
    then (inl DuplicateKeyError, mkWorld (users w) calls)
    else (inr (success_response (DataDoc (returned (oid, stored)))
                 "Usuario creado exitosamente" 201),
          mkWorld (users w ++ [(oid, stored)])
            (CFindOne (by_id oid) :: calls)).
Proof.
  intros n salt oid stored calls Hfree Hhash. unfold run, create_user. step.
  rewrite find_one_by_email, Hfree.
  cbn [fmap option_fmap option_map doc_truthy]. step.
  subst n salt. cbn [length Nat.add] in Hhash |- *. rewrite Hhash. step.
  case_bool_decide as Hdup.
  - by rewrite (insert_one_dup _ _ _ Hdup).
  - rewrite (insert_one_new _ _ _ Hdup). step.
    rewrite find_one_by_id, (by_key_app_new _ _ _ Hdup).
    cbn [fmap option_fmap option_map stringify_id_opt].
    rewrite stringify_id_to_doc. done.
Qed.

Lemma update_user_missing user_id user_update oid w :
  ObjectId_new user_id = Some oid →
  by_key oid (users w) = None →
  run E (update_user user_id user_update) w
  = (inl (not_found user_id),
     mkWorld (users w) (CFindOne (by_id oid) :: trace w)).
Proof.
  intros Hoid Hkey. unfold run, update_user.
  rewrite (ObjectId_new_is_valid _ _ Hoid), (ObjectId_call_valid _ _ Hoid).
  step. rewrite find_one_by_id, Hkey. done.
Qed.

Lemma update_user_conflict user_id user_update oid r r' w :
  ObjectId_new user_id = Some oid →
  by_key oid (users w) = Some r →
  List.find (λ r, has_email (email user_update) r && negb (has_key oid r))
    (users w) = Some r' →
  run E (update_user user_id user_update) w
  = (inl (email_taken (email user_update)),
     mkWorld (users w)
       (CFindOne (by_email_not_id (email user_update) oid)
          :: CFindOne (by_id oid) :: trace w)).
Proof.
  intros Hoid Hkey Hheld. unfold run, update_user.
  rewrite (ObjectId_new_is_valid _ _ Hoid), (ObjectId_call_valid _ _ Hoid).
  step. rewrite find_one_by_id, Hkey.
  rewrite doc_truthy_fmap, bool_decide_eq_true_2 by eauto. step.
  rewrite find_one_by_email_not_id, Hheld.
  rewrite doc_truthy_fmap, bool_decide_eq_true_2 by eauto. done.
Qed.

Lemma update_user_refused user_id user_update oid r w :
  let n := length (trace w) in
  let salt := next_salt E (2 + n) in
  ObjectId_new user_id = Some oid →
  by_key oid (users w) = Some r →
  List.find (λ r, has_email (email user_update) r && negb (has_key oid r))
    (users w) = None →
  bcrypt_hashpw E (password user_update) salt = None →
  run E (update_user user_id user_update) w
  = (inl HashValueError,
     mkWorld (users w)
       (CHashPw (password user_update) salt :: CGenSalt
          :: CFindOne (by_email_not_id (email user_update) oid)
          :: CFindOne (by_id oid) :: trace w)).
Proof.
  intros n salt Hoid Hkey Hfree Hhash. unfold run, update_user.
  rewrite (ObjectId_new_is_valid _ _ Hoid), (ObjectId_call_valid _ _ Hoid).
  step. rewrite find_one_by_id, Hkey.
  rewrite doc_truthy_fmap, bool_decide_eq_true_2 by eauto. step.
  rewrite find_one_by_email_not_id, Hfree.
  cbn [fmap option_fmap option_map doc_truthy]. step.
  subst n salt. cbn [length Nat.add] in Hhash |- *. by rewrite Hhash.
Qed.

Lemma update_user_run user_id user_update hashed oid r w :
  let n := length (trace w) in
  let salt := next_salt E (2 + n) in
  let upd := user_fields user_update hashed in
  ObjectId_new user_id = Some oid →
  by_key oid (users w) = Some r →
  List.find (λ r, has_email (email user_update) r && negb (has_key oid r))
    (users w) = None →
  bcrypt_hashpw E (password user_update) salt = Some hashed →
  run E (update_user user_id user_update) w
  = (inr (success_response (DataDoc (returned (oid, upd ∪ r.2)))
            "Usuario actualizado exitosamente" 200),
     mkWorld (update_one (by_id oid) upd (users w))
       (CFindOne (by_id oid) :: CUpdateOne (by_id oid) upd
          :: CHashPw (password user_update) salt :: CGenSalt
          :: CFindOne (by_email_not_id (email user_update) oid)
          :: CFindOne (by_id oid) :: trace w)).
Proof.
  intros n salt upd Hoid Hkey Hfree Hhash. unfold run, update_user.
  rewrite (ObjectId_new_is_valid _ _ Hoid), (ObjectId_call_valid _ _ Hoid).
  step. rewrite find_one_by_id, Hkey.
  rewrite doc_truthy_fmap, bool_decide_eq_true_2 by eauto. step.
  rewrite find_one_by_email_not_id, Hfree.
  cbn [fmap option_fmap option_map doc_truthy]. step.
  subst n salt. cbn [length Nat.add] in Hhash |- *. rewrite Hhash. step.
  rewrite find_one_by_id, by_key_update_one, Hkey.
  cbn [fmap option_fmap option_map stringify_id_opt].
  rewrite stringify_id_to_doc. cbn [fst snd].
  destruct (by_key_Some _ _ _ Hkey) as [_ ->]. done.
Qed.

Lemma delete_user_missing user_id oid w :
  ObjectId_new user_id = Some oid →
  by_key oid (users w) = None →
  run E (delete_user user_id) w
  = (inl (not_found user_id),
     mkWorld (users w) (CFindOne (by_id oid) :: trace w)).
Proof.
  intros Hoid Hkey. unfold run, delete_user.
  rewrite (ObjectId_new_is_valid _ _ Hoid), (ObjectId_call_valid _ _ Hoid).
  step. rewrite find_one_by_id, Hkey. done.
Qed.

Lemma delete_user_run user_id oid r w :
  ObjectId_new user_id = Some oid →
  by_key oid (users w) = Some r →
  run E (delete_user user_id) w
  = (inr (success_response (DataDoc {[ "deleted_count" := VInt 1 ]})
            "Usuario eliminado exitosamente" 200),
     mkWorld (delete_one (by_id oid) (users w)).2
       (CDeleteOne (by_id oid) :: CFindOne (by_id oid) :: trace w)).
Proof.
  intros Hoid Hkey. unfold run, delete_user.
  rewrite (ObjectId_new_is_valid _ _ Hoid), (ObjectId_call_valid _ _ Hoid).
  step. rewrite find_one_by_id, Hkey.
  rewrite doc_truthy_fmap, bool_decide_eq_true_2 by eauto. step.
  pose proof (delete_one_found _ _ _ Hkey) as Hn.
  destruct (delete_one (by_id oid) (users w)) as [k c']. simpl in Hn.
  subst k. done.
Qed.

(** A concurrent request may remove the document between the existence
    check and the delete: the handler still answers with success, and the
    count is the one the collection reports. *)
Lemma delete_user_exec others user_id oid r w :
  let c1 := others (length (trace w)) (users w) in
  let c2 := others (S (length (trace w))) c1 in
  ObjectId_new user_id = Some oid →
  by_key oid c1 = Some r →
  exec others E (delete_user user_id) w
  = (inr (success_response
            (DataDoc {[ "deleted_count" := VInt (delete_one (by_id oid) c2).1 ]})
            "Usuario eliminado exitosamente" 200),
     mkWorld (delete_one (by_id oid) c2).2
       (CDeleteOne (by_id oid) :: CFindOne (by_id oid) :: trace w)).
Proof.
  intros c1 c2 Hoid Hkey. unfold delete_user.
  rewrite (ObjectId_new_is_valid _ _ Hoid), (ObjectId_call_valid _ _ Hoid).
  step. fold c1. rewrite find_one_by_id, Hkey.
  rewrite doc_truthy_fmap, bool_decide_eq_true_2 by eauto. step.
  change (others (length (CFindOne (by_id oid) :: trace w)) c1) with c2.
  by destruct (delete_one (by_id oid) c2) as [k c'].
Qed.

End writes.

Lemma find_is_Some {A} (f : A → bool) (l : list A) x :
  x ∈ l → f x = true → ∃ y, List.find f l = Some y.
Proof.
  intros Hin Hf. destruct (List.find f l) as [y|] eqn:Hfind; [eauto|].
  apply list_elem_of_In in Hin.
  pose proof (find_none _ _ Hfind x Hin). congruence.
Qed.

Lemma find_is_None {A} (f : A → bool) (l : list A) :
  (∀ x, x ∈ l → f x = false) → List.find f l = None.
Proof.
  intros Hall. destruct (List.find f l) as [y|] eqn:Hfind; [|done].
  apply find_some in Hfind as [Hin Hf]. apply list_elem_of_In in Hin.
  rewrite (Hall y Hin) in Hf. done.
Qed.

Lemma hash_password_run E pw w :
  let salt := next_salt E (length (trace w)) in
  let w' := mkWorld (users w) (CHashPw pw salt :: CGenSalt :: trace w) in
  run E (hash_password pw) w
  = match bcrypt_hashpw E pw salt with
    | Some hashed => (inr hashed, w')
    | None => (inl HashValueError, w')
    end.
Proof.
  intros salt w'. unfold run, hash_password. step. fold salt.
  by destruct (bcrypt_hashpw E pw salt).
Qed.

(** ** Every request keeps keys and emails unique *)

Lemma handler_preserves E r w :
  unique_ids (users w) → unique_emails (users w) →
  unique_ids (users (run E (handler r) w).2) ∧
  unique_emails (users (run E (handler r) w).2).
Proof.
  intros Hids Hem. destruct r as [|user|user_id|user_id user|user_id];
    cbn [handler].
  - by rewrite get_all_users_run.
  - destruct (List.find (has_email (email user)) (users w)) as [r|] eqn:Hfind.
    + by rewrite (create_user_conflict _ _ _ _ Hfind).
    + destruct (bcrypt_hashpw E (password user)
                  (next_salt E (S (length (trace w))))) as [hashed|] eqn:Hhash.
      * rewrite (create_user_run _ _ _ _ Hfind Hhash).
        case_bool_decide as Hdup; [done|]. cbn [snd users]. split.
        -- by apply unique_ids_insert.
        -- by apply unique_emails_insert.
      * by rewrite (create_user_refused _ _ _ Hfind Hhash).
  - destruct (is_valid user_id) eqn:Hvalid.
    + destruct (is_valid_ObjectId_new _ Hvalid) as [oid Hoid].
      destruct (by_key oid (users w)) as [r|] eqn:Hkey.
      * by rewrite (get_user_found _ _ _ _ _ Hoid Hkey).
      * by rewrite (get_user_missing _ _ _ _ Hoid Hkey).
    + by rewrite (get_user_invalid _ _ _ Hvalid).
  - destruct (is_valid user_id) eqn:Hvalid.
    + destruct (is_valid_ObjectId_new _ Hvalid) as [oid Hoid].
      destruct (by_key oid (users w)) as [r|] eqn:Hkey.
      * destruct (List.find
          (λ r, has_email (email user) r && negb (has_key oid r)) (users w))
          as [r'|] eqn:Hfind.
        -- by rewrite (update_user_conflict _ _ _ _ _ _ _ Hoid Hkey Hfind).
        -- destruct (bcrypt_hashpw E (password user)
                       (next_salt E (2 + length (trace w))))
             as [hashed|] eqn:Hhash.
           ++ rewrite (update_user_run _ _ _ _ _ _ _ Hoid Hkey Hfind Hhash).
              cbn [snd users]. split.
              ** by apply unique_ids_update.
              ** by apply unique_emails_update.
           ++ by rewrite (update_user_refused _ _ _ _ _ _ Hoid Hkey Hfind Hhash).
      * by rewrite (update_user_missing _ _ _ _ _ Hoid Hkey).
    + by rewrite (update_user_invalid _ _ _ _ Hvalid).
  - destruct (is_valid user_id) eqn:Hvalid.
    + destruct (is_valid_ObjectId_new _ Hvalid) as [oid Hoid].
      destruct (by_key oid (users w)) as [r|] eqn:Hkey.
      * rewrite (delete_user_run _ _ _ _ _ Hoid Hkey). cbn [snd users]. split.
        -- by apply unique_ids_delete.
        -- by apply unique_emails_delete.
      * by rewrite (delete_user_missing _ _ _ _ Hoid Hkey).
    + by rewrite (delete_user_invalid _ _ _ Hvalid).
Qed.

Lemma serve_preserves E rs w :
  unique_ids (users w) → unique_emails (users w) →
  unique_ids (users (serve E rs w)) ∧ unique_emails (users (serve E rs w)).
Proof.
  revert w. induction rs as [|r rs IH]; intros w Hids Hem; [done|].
  cbn [serve]. destruct (handler_preserves E r w Hids Hem) as [? ?].
  by apply IH.
Qed.

Lemma unique_ids_one r : unique_ids [r].
Proof. apply NoDup_singleton. Qed.

Lemma unique_emails_one r : unique_emails [r].
Proof. intros e. unfold holders. simpl. destruct (has_email e r); simpl; lia. Qed.

Lemma union_covered (m1 m2 : document) : dom m2 ⊆ dom m1 → m1 ∪ m2 = m1.
Proof.
  intros Hdom. apply map_eq. intros k.
  destruct (m1 !! k) as [v|] eqn:Hk.
  - by apply lookup_union_Some_l.
  - apply lookup_union_None. split; [done|].
    apply not_elem_of_dom. apply not_elem_of_dom in Hk. set_solver.
Qed.

Lemma user_fields_union_other u hashed (d : document) k :
  k ≠ "name" → k ≠ "email" → k ≠ "hashed_password" →
  (user_fields u hashed ∪ d) !! k = d !! k.
Proof.
  intros. rewrite lookup_union_r; [done|]. by apply user_fields_other.
Qed.

Lemma detail_message e : detail e !! "message" = Some (VStr (message e)).
Proof.
  unfold detail, _build_detail, set_if_truthy.
  destruct (identifier e) as [[|]|], (resource e) as [[|]|];
    by simplify_map_eq.
Qed.

Lemma detail_resource e :
  detail e !! "resource"
  = if opt_truthy (resource e) then VStr <$> resource e else None.
Proof.
  unfold detail, _build_detail, set_if_truthy.
  destruct (identifier e) as [[|]|], (resource e) as [[|]|];
    by simplify_map_eq.
Qed.

Lemma detail_identifier e :
  detail e !! "identifier"
  = if opt_truthy (identifier e) then VStr <$> identifier e else None.
Proof.
  unfold detail, _build_detail, set_if_truthy.
  destruct (identifier e) as [[|]|], (resource e) as [[|]|];
    by simplify_map_eq.
Qed.

(** ** Worked examples *)

(** List on the empty collection. *)
Example list_empty :
  (run sample_env get_all_users empty_world).1
  = inr {| success := true; statusCode := 200;
           env_message := "Se encontraron 0 usuarios";
           data := DataList []; count := Some 0 |}.
Proof. reflexivity. Qed.

(** Create, then Get, Delete and Get again on the returned identifier. *)
Example create_get_delete_get :
  let w1 := (run sample_env (create_user juan) empty_world).2 in
  let w2 := (run sample_env (get_user "68eeafce05740b9d36aab313") w1).2 in
  let w3 := (run sample_env (delete_user "68eeafce05740b9d36aab313") w2).2 in
  doc_field "_id" (run sample_env (create_user juan) empty_world).1
  = Some (VStr "68eeafce05740b9d36aab313") ∧
  doc_field "email" (run sample_env (get_user "68eeafce05740b9d36aab313") w1).1
  = Some (VStr "juan@email.com") ∧
  doc_field "deleted_count"
    (run sample_env (delete_user "68eeafce05740b9d36aab313") w2).1
  = Some (VInt 1) ∧
  (status_code <$>
     raised (run sample_env (get_user "68eeafce05740b9d36aab313") w3).1)
  = Some 404.
Proof. repeat split; vm_compute; reflexivity. Qed.

(** * The claims *)

(** C1, on the code: the documents handed to the envelope by Get, List,
    Create and Update still carry [hashed_password]. *)
Theorem C1_hashed_password_returned :
  (∀ r, returned r !! "hashed_password" = r.2 !! "hashed_password") ∧
  doc_field "hashed_password"
    (run sample_env (get_user "68eeafce05740b9d36aab307") one_user).1
  = Some (VStr "$2b$12$stored") ∧
  first_field "hashed_password" (run sample_env get_all_users one_user).1
  = Some (VStr "$2b$12$stored") ∧
  doc_field "hashed_password" (run sample_env (create_user maria) one_user).1
  = Some (VStr "$2b$12$salt1#secret2") ∧
  doc_field "hashed_password"
    (run sample_env (update_user "68eeafce05740b9d36aab307" maria) one_user).1
  = Some (VStr "$2b$12$salt2#secret2").
Proof.
  split.
  - intros r. unfold returned. by rewrite lookup_insert_ne.
  - repeat split; vm_compute; reflexivity.
Qed.

(** C2: starting from a collection with unique keys in which at most one
    document holds any email, every sequence of requests served one after
    the other leaves at most one document per email; a Create whose email
    is already held raises AlreadyExists after its single lookup and
    inserts nothing, in particular a second Create after a successful one
    with the same email. *)
Theorem C2_email_stays_unique E w :
  unique_ids (users w) → unique_emails (users w) →
  (∀ rs, unique_emails (users (serve E rs w))) ∧
  (∀ user r, r ∈ users w → has_email (email user) r = true →
     run E (create_user user) w
     = (inl (email_taken (email user)),
        mkWorld (users w) (CFindOne (by_email (email user)) :: trace w))) ∧
  (∀ first second resp w1,
     run E (create_user first) w = (inr resp, w1) →
     email second = email first →
     run E (create_user second) w1
     = (inl (email_taken (email second)),
        mkWorld (users w1) (CFindOne (by_email (email second)) :: trace w1))).
Proof.
  intros Hids Hem. split; [|split].
  - intros rs. by apply serve_preserves.
  - intros user r Hin Hheld.
    destruct (find_is_Some _ _ _ Hin Hheld) as [r' Hfind].
    by apply (create_user_conflict _ _ _ r').
  - intros first second resp w1 Hrun Heq.
    destruct (List.find (has_email (email first)) (users w)) as [r|] eqn:Hfind.
    { by rewrite (create_user_conflict _ _ _ _ Hfind) in Hrun. }
    destruct (bcrypt_hashpw E (password first)
                (next_salt E (S (length (trace w))))) as [hashed|] eqn:Hhash.
    2: { by rewrite (create_user_refused _ _ _ Hfind Hhash) in Hrun. }
    rewrite (create_user_run _ _ _ _ Hfind Hhash) in Hrun.
    case_bool_decide as Hdup; [done|]. injection Hrun as _ <-.
    match goal with
    | |- run _ _ ?w1 = _ =>
        assert (∃ r', List.find (has_email (email second)) (users w1) = Some r')
          as [r' Hfind']
    end.
    { cbn [users]. eapply find_is_Some.
      - apply elem_of_app. right. by left.
      - rewrite has_email_fields. by apply bool_decide_eq_true. }
    exact (create_user_conflict _ _ _ _ Hfind').
Qed.

Lemma C2_witness :
  unique_ids (users one_user) ∧ unique_emails (users one_user) ∧
  unique_emails
    (users (serve sample_env
              [Create maria; Create juan; Update "68eeafce05740b9d36aab307" maria;
               Delete "68eeafce05740b9d36aab307"; Create juan]
              one_user)) ∧
  (run sample_env (create_user juan) one_user).1
  = inl (email_taken "juan@email.com").
Proof.
  pose proof (C2_email_stays_unique sample_env one_user
                (unique_ids_one _) (unique_emails_one _)) as (Hall & Hheld & _).
  split; [apply unique_ids_one|]. split; [apply unique_emails_one|].
  split; [apply Hall|].
  rewrite (Hheld juan (sample_oid "07", juan_doc)); [done | by left | done].
Defined.

(** C3, on the code.  Create looks the email up first, and a held email
    ends it there with AlreadyExists (409): nothing is hashed or inserted.
    With a free email the handler draws a salt and calls [bcrypt.hashpw].
    When bcrypt accepts the secret, the dictionary of name, email and digest
    is inserted, read back by the key assigned to it and returned with
    status 201; what is returned is the stored document with its key as a
    string, so it carries [hashed_password] and is not the view the claim
    promises (the defect of C1).  When bcrypt refuses the secret, as it
    refuses the 73 bytes of [long_password], the handler ends in bcrypt's
    ValueError and nothing is inserted, although the inputs are valid. *)
Theorem C3_create_on_the_code :
  (∀ E user w r,
     r ∈ users w → has_email (email user) r = true →
     ∃ e w',
       run E (create_user user) w = (inl (HTTP e), w') ∧
       status_code e = 409 ∧
       users w' = users w ∧
       trace w' = CFindOne (by_email (email user)) :: trace w ∧
       bcrypt_calls w' = bcrypt_calls w) ∧
  (∀ E user w hashed,
     let n := length (trace w) in
     let salt := next_salt E (S n) in
     let oid := next_ObjectId E (3 + n) in
     let stored := user_fields user hashed in
     (∀ r, r ∈ users w → has_email (email user) r = false) →
     bcrypt_hashpw E (password user) salt = Some hashed →
     oid ∉ (users w).*1 →
     ∃ resp w' d,
       run E (create_user user) w = (inr resp, w') ∧
       success resp = true ∧ statusCode resp = 201 ∧
       data resp = DataDoc d ∧
       d = returned (oid, stored) ∧
       d !! "hashed_password" = Some (VStr hashed) ∧
       stored = {[ "name" := VStr (name user);
                   "email" := VStr (email user);
                   "hashed_password" := VStr hashed ]} ∧
       users w' = users w ++ [(oid, stored)] ∧
       by_key oid (users w') = Some (oid, stored) ∧
       trace w' = CFindOne (by_id oid) :: CInsertOne stored
                    :: CHashPw (password user) salt :: CGenSalt
                    :: CFindOne (by_email (email user)) :: trace w) ∧
  (∀ E user w,
     let salt := next_salt E (S (length (trace w))) in
     (∀ r, r ∈ users w → has_email (email user) r = false) →
     bcrypt_hashpw E (password user) salt = None →
     ∃ w',
       run E (create_user user) w = (inl HashValueError, w') ∧
       users w' = users w ∧
       trace w' = CHashPw (password user) salt :: CGenSalt
                    :: CFindOne (by_email (email user)) :: trace w) ∧
  doc_field "hashed_password" (run sample_env (create_user maria) one_user).1
  = Some (VStr "$2b$12$salt1#secret2") ∧
  String.length (password ana) = 73%nat ∧
  (run sample_env (create_user ana) one_user).1 = inl HashValueError ∧
  users (run sample_env (create_user ana) one_user).2 = users one_user.
Proof.
  split; [|split; [|split]].
  - intros E user w r Hin Hheld.
    destruct (find_is_Some _ _ _ Hin Hheld) as [r' Hfind].
    eexists _, _. rewrite (create_user_conflict _ _ _ _ Hfind).
    split; [reflexivity|]. by repeat split.
  - intros E user w hashed n salt oid stored Hfree Hhash Hnew.
    rewrite (create_user_run _ _ _ _ (find_is_None _ _ Hfree) Hhash).
    fold n salt oid stored. rewrite bool_decide_eq_false_2 by done.
    eexists _, _, _. split; [reflexivity|]. cbn [users trace data].
    do 4 (split; [reflexivity|]).
    split; [unfold returned; rewrite lookup_insert_ne by done;
            apply user_fields_hashed|].
    repeat split. by apply by_key_app_new.
  - intros E user w salt Hfree Hhash.
    rewrite (create_user_refused _ _ _ (find_is_None _ _ Hfree) Hhash).
    eexists. by repeat split.
  - repeat split; vm_compute; reflexivity.
Qed.

Lemma C3_witness :
  (∃ e w',
     run sample_env (create_user juan) one_user = (inl (HTTP e), w') ∧
     status_code e = 409 ∧ users w' = users one_user ∧
     trace w' = CFindOne (by_email (email juan)) :: trace one_user ∧
     bcrypt_calls w' = bcrypt_calls one_user) ∧
  (∃ resp w' d,
     run sample_env (create_user maria) one_user = (inr resp, w') ∧
     statusCode resp = 201 ∧ data resp = DataDoc d ∧
     d !! "hashed_password" = Some (VStr "$2b$12$salt1#secret2")) ∧
  (∃ w',
     run sample_env (create_user ana) one_user = (inl HashValueError, w') ∧
     users w' = users one_user).
Proof.
  destruct C3_create_on_the_code as (Hheld & Hok & Hrefused & _).
  assert (∀ user, email user ≠ "juan@email.com" →
            ∀ r, r ∈ users one_user → has_email (email user) r = false)
    as Hfree.
  { intros user Hne r Hr.
    change (users one_user) with [(sample_oid "07", juan_doc)] in Hr.
    apply list_elem_of_singleton in Hr as ->.
    unfold has_email. apply bool_decide_eq_false_2.
    intros [= Heq]. by apply Hne. }
  split; [|split].
  - apply (Hheld sample_env juan one_user (sample_oid "07", juan_doc));
      [by left | done].
  - destruct (Hok sample_env maria one_user "$2b$12$salt1#secret2")
      as (resp & w' & d & Hrun & _ & Hst & Hdata & _ & Hdigest & _).
    + by apply Hfree.
    + reflexivity.
    + change (users one_user).*1 with [sample_oid "07"].
      intros Hin%list_elem_of_singleton. vm_compute in Hin. discriminate.
    + by exists resp, w', d.
  - destruct (Hrefused sample_env ana one_user) as (w' & Hrun & Hus & _).
    + by apply Hfree.
    + reflexivity.
    + by exists w'.
Defined.

(** C4, as stated, fails: an identifier written with uppercase digits is
    not a lowercase token, yet [ObjectId.is_valid] accepts it, and Get
    answers with the stored document after one store call. *)
Lemma C4_uppercase_accepted :
  lower_hex24 "68EEAFCE05740B9D36AAB307" = false ∧
  is_valid "68EEAFCE05740B9D36AAB307" = true ∧
  (∃ resp w',
     run sample_env (get_user "68EEAFCE05740B9D36AAB307") one_user
     = (inr resp, w') ∧
     statusCode resp = 200 ∧ store_calls w' = 1%nat) ∧
  ¬ (∀ user_id, lower_hex24 user_id = false →
       ∃ e w', run sample_env (get_user user_id) one_user = (inl (HTTP e), w')
               ∧ status_code e = 400).
Proof.
  assert (∃ resp w',
     run sample_env (get_user "68EEAFCE05740B9D36AAB307") one_user
     = (inr resp, w') ∧
     statusCode resp = 200 ∧ store_calls w' = 1%nat) as Hget.
  { eexists _, _.
    rewrite (get_user_found sample_env _ (sample_oid "07")
               (sample_oid "07", juan_doc)); [|reflexivity..].
    by repeat split. }
  split; [reflexivity|]. split; [reflexivity|]. split; [exact Hget|].
  intros Hall. destruct Hget as (resp & w' & Hrun & _).
  destruct (Hall "68EEAFCE05740B9D36AAB307") as (e & w'' & Hrun' & _);
    [reflexivity|].
  rewrite Hrun in Hrun'. discriminate.
Qed.

(** C4, amended: for every identifier that [ObjectId.is_valid] rejects, each
    of Get, Update and Delete raises the bad-request error (400, carrying
    the identifier) without any call to the collection or to bcrypt.  The
    validation accepts every string of 24 hexadecimal digits in either
    letter case, so every lowercase token; whatever it accepts has length
    24 and consists of hexadecimal digits and whitespace. *)
Theorem C4_invalid_identifier :
  (∀ E w user_id user_update,
     is_valid user_id = false →
     ∃ e,
       status_code e = 400 ∧ identifier e = Some user_id ∧
       run E (get_user user_id) w = (inl (HTTP e), w) ∧
       run E (update_user user_id user_update) w = (inl (HTTP e), w) ∧
       run E (delete_user user_id) w = (inl (HTTP e), w)) ∧
  (∀ user_id, hex24 user_id = true → is_valid user_id = true) ∧
  (∀ user_id, lower_hex24 user_id = true → is_valid user_id = true) ∧
  (∀ user_id, is_valid user_id = true →
     String.length user_id = 24%nat ∧
     all_chars is_hex_or_space user_id = true).
Proof.
  split; [|split; [|split]].
  - intros E w user_id user_update Hbad. eexists. split; [|split; [|split; [|split]]].
    3: by apply get_user_invalid.
    3: by apply update_user_invalid.
    3: by apply delete_user_invalid.
    all: reflexivity.
  - apply hex24_is_valid.
  - intros user_id H. by apply hex24_is_valid, lower_hex24_hex24.
  - apply is_valid_shape.
Qed.

Lemma C4_witness :
  is_valid "123abc" = false ∧
  ∃ e,
    status_code e = 400 ∧ identifier e = Some "123abc" ∧
    run sample_env (get_user "123abc") one_user = (inl (HTTP e), one_user) ∧
    run sample_env (update_user "123abc" maria) one_user
    = (inl (HTTP e), one_user) ∧
    run sample_env (delete_user "123abc") one_user = (inl (HTTP e), one_user).
Proof.
  split; [reflexivity|].
  apply (proj1 C4_invalid_identifier sample_env one_user "123abc" maria).
  reflexivity.
Defined.

(** C5, on the code.  Update of an existing user: if a document under
    another key holds the new email, the handler raises AlreadyExists (409)
    and writes nothing.  If no document under another key holds it (the
    target itself may), the handler goes on to [bcrypt.hashpw]: when bcrypt
    accepts the new secret the update succeeds (200) and the target holds
    the new email; when bcrypt refuses it, as it refuses the 73 bytes of
    [long_password], the handler ends in bcrypt's ValueError with nothing
    written, where the claim has the Update succeed. *)
Theorem C5_update_email_rule :
  (∀ E user_id user_update oid r w,
     let salt := next_salt E (2 + length (trace w)) in
     ObjectId_new user_id = Some oid →
     by_key oid (users w) = Some r →
     (∀ r', r' ∈ users w → r'.1 ≠ oid →
        has_email (email user_update) r' = true →
        ∃ e w',
          run E (update_user user_id user_update) w = (inl (HTTP e), w') ∧
          e = AlreadyExistsException "Usuario"
                (Some ("email " +:+ email user_update)) ∧
          status_code e = 409 ∧ users w' = users w) ∧
     (has_email (email user_update) r = true →
      (∀ r', r' ∈ users w → r'.1 ≠ oid →
         has_email (email user_update) r' = false) →
      (∀ hashed,
         bcrypt_hashpw E (password user_update) salt = Some hashed →
         ∃ resp w',
           run E (update_user user_id user_update) w = (inr resp, w') ∧
           success resp = true ∧ statusCode resp = 200 ∧
           ∃ r'', by_key oid (users w') = Some r'' ∧
                  has_email (email user_update) r'' = true) ∧
      (bcrypt_hashpw E (password user_update) salt = None →
         ∃ w',
           run E (update_user user_id user_update) w
           = (inl HashValueError, w') ∧
           users w' = users w))) ∧
  String.length long_password = 73%nat ∧
  by_key (sample_oid "07") (users one_user) = Some (sample_oid "07", juan_doc) ∧
  has_email "juan@email.com" (sample_oid "07", juan_doc) = true ∧
  (run sample_env
     (update_user "68eeafce05740b9d36aab307"
        (mkUser "Juan Pérez" "juan@email.com" long_password)) one_user).1
  = inl HashValueError ∧
  users (run sample_env
           (update_user "68eeafce05740b9d36aab307"
              (mkUser "Juan Pérez" "juan@email.com" long_password))
           one_user).2
  = users one_user.
Proof.
  split; [|repeat split; vm_compute; reflexivity].
  intros E user_id user_update oid r w salt Hoid Hkey. split.
  - intros r' Hin Hne Hheld.
    destruct (find_is_Some
      (λ r, has_email (email user_update) r && negb (has_key oid r))
      (users w) r' Hin) as [r0 Hfind].
    { rewrite Hheld. unfold has_key. by rewrite bool_decide_eq_false_2. }
    eexists _, _. rewrite (update_user_conflict _ _ _ _ _ _ _ Hoid Hkey Hfind).
    by repeat split.
  - intros _ Hfree.
    assert (List.find
      (λ r, has_email (email user_update) r && negb (has_key oid r))
      (users w) = None) as Hfind.
    { apply find_is_None. intros r' Hin. unfold has_key.
      case_bool_decide as Hk; [by rewrite andb_false_r|].
      by rewrite (Hfree r' Hin Hk). }
    split.
    + intros hashed Hhash. eexists _, _.
      rewrite (update_user_run _ _ _ _ _ _ _ Hoid Hkey Hfind Hhash).
      split; [reflexivity|]. split; [done|]. split; [done|].
      cbn [users]. rewrite by_key_update_one, Hkey. eexists. split; [done|].
      cbn [fst snd]. rewrite (surjective_pairing r) at 1.
      rewrite has_email_set. by apply bool_decide_eq_true.
    + intros Hhash. eexists.
      by rewrite (update_user_refused _ _ _ _ _ _ Hoid Hkey Hfind Hhash).
Qed.

Lemma C5_witness :
  (∃ e w',
     run sample_env
       (update_user "68eeafce05740b9d36aab307"
          (mkUser "Juan" "maria@email.com" "secret3")) two_users
     = (inl (HTTP e), w') ∧
     status_code e = 409 ∧ users w' = users two_users) ∧
  (∃ resp w',
     run sample_env
       (update_user "68eeafce05740b9d36aab307"
          (mkUser "Juan" "juan@email.com" "secret3")) two_users
     = (inr resp, w') ∧ success resp = true ∧ statusCode resp = 200) ∧
  (∃ w',
     run sample_env
       (update_user "68eeafce05740b9d36aab307"
          (mkUser "Juan" "juan@email.com" long_password)) two_users
     = (inl HashValueError, w') ∧ users w' = users two_users).
Proof.
  assert (∀ r', r' ∈ users two_users → r'.1 ≠ sample_oid "07" →
            has_email "juan@email.com" r' = false) as Hfree.
  { intros r' Hin Hne.
    change (users two_users)
      with [(sample_oid "07", juan_doc); (sample_oid "08", maria_doc)] in Hin.
    apply elem_of_cons in Hin as [->|Hin]; [done|].
    apply list_elem_of_singleton in Hin as ->. reflexivity. }
  split; [|split].
  - destruct (proj1 (proj1 C5_update_email_rule sample_env
        "68eeafce05740b9d36aab307" (mkUser "Juan" "maria@email.com" "secret3")
        (sample_oid "07") (sample_oid "07", juan_doc) two_users
        eq_refl eq_refl) (sample_oid "08", maria_doc))
      as (e & w' & Hrun & _ & Hst & Hus).
    + right. by left.
    + vm_compute. discriminate.
    + reflexivity.
    + by exists e, w'.
  - destruct (proj1 (proj2 (proj1 C5_update_email_rule sample_env
        "68eeafce05740b9d36aab307" (mkUser "Juan" "juan@email.com" "secret3")
        (sample_oid "07") (sample_oid "07", juan_doc) two_users
        eq_refl eq_refl) eq_refl Hfree) "$2b$12$salt2#secret3" eq_refl)
      as (resp & w' & Hrun & Hok & Hst & _).
    by exists resp, w'.
  - destruct (proj2 (proj2 (proj1 C5_update_email_rule sample_env
        "68eeafce05740b9d36aab307" (mkUser "Juan" "juan@email.com" long_password)
        (sample_oid "07") (sample_oid "07", juan_doc) two_users
        eq_refl eq_refl) eq_refl Hfree) eq_refl)
      as (w' & Hrun & Hus).
    by exists w'.
Defined.

(** C6: a successful Update replaces the body of the stored document.  In a
    collection whose documents have the fields of the data model (name,
    email, hashed_password), whenever Update returns its envelope the
    identifier names a stored key, and afterwards the document under that
    key consists exactly of the new name, the new email and the digest of
    the new secret: no value of the previous body is left.  The key, the
    position of the document and every other document are as before. *)
Theorem C6_update_replaces_body E user_id user_update w resp w' :
  shaped (users w) →
  run E (update_user user_id user_update) w = (inr resp, w') →
  ∃ oid r hashed,
    ObjectId_new user_id = Some oid ∧
    by_key oid (users w) = Some r ∧
    bcrypt_hashpw E (password user_update)
      (next_salt E (2 + length (trace w))) = Some hashed ∧
    success resp = true ∧ statusCode resp = 200 ∧
    by_key oid (users w')
    = Some (oid, {[ "name" := VStr (name user_update);
                    "email" := VStr (email user_update);
                    "hashed_password" := VStr hashed ]}) ∧
    (users w').*1 = (users w).*1 ∧
    (∀ oid', oid' ≠ oid → by_key oid' (users w') = by_key oid' (users w)).
Proof.
  intros Hshaped Hrun.
  destruct (is_valid user_id) eqn:Hvalid.
  2: { by rewrite (update_user_invalid _ _ _ _ Hvalid) in Hrun. }
  destruct (is_valid_ObjectId_new _ Hvalid) as [oid Hoid].
  destruct (by_key oid (users w)) as [r|] eqn:Hkey.
  2: { by rewrite (update_user_missing _ _ _ _ _ Hoid Hkey) in Hrun. }
  destruct (List.find
    (λ r, has_email (email user_update) r && negb (has_key oid r)) (users w))
    as [r'|] eqn:Hfind.
  { by rewrite (update_user_conflict _ _ _ _ _ _ _ Hoid Hkey Hfind) in Hrun. }
  destruct (bcrypt_hashpw E (password user_update)
              (next_salt E (2 + length (trace w)))) as [hashed|] eqn:Hhash.
  2: { by rewrite (update_user_refused _ _ _ _ _ _ Hoid Hkey Hfind Hhash)
         in Hrun. }
  rewrite (update_user_run _ _ _ _ _ _ _ Hoid Hkey Hfind Hhash) in Hrun.
  injection Hrun as <- <-. exists oid, r, hashed.
  destruct (by_key_Some _ _ _ Hkey) as [Hin Hr1].
  do 5 (split; [done|]). cbn [users]. split.
  { rewrite by_key_update_one, Hkey. cbn. rewrite Hr1.
    rewrite union_covered; [reflexivity|].
    rewrite (Hshaped r) by done.
    unfold user_fields, model_dump, user_keys.
    rewrite dom_insert_L, dom_delete_L, !dom_insert_L. set_solver. }
  split; [apply update_one_keys|].
  intros oid' Hne. by apply by_key_update_one_ne.
Qed.

Lemma C6_witness :
  shaped (users one_user) ∧
  ∃ resp w',
    run sample_env
      (update_user "68eeafce05740b9d36aab307" maria) one_user = (inr resp, w') ∧
    by_key (sample_oid "07") (users w')
    = Some (sample_oid "07",
            {[ "name" := VStr "María García";
               "email" := VStr "maria@email.com";
               "hashed_password" := VStr "$2b$12$salt2#secret2" ]}).
Proof.
  assert (shaped (users one_user)) as Hshaped.
  { intros r Hin.
    change (users one_user) with [(sample_oid "07", juan_doc)] in Hin.
    apply list_elem_of_singleton in Hin as ->.
    unfold juan_doc, user_keys. cbn [snd].
    rewrite !dom_insert_L, dom_singleton_L. set_solver. }
  split; [exact Hshaped|].
  eexists _, _. split; [reflexivity|].
  destruct (C6_update_replaces_body sample_env "68eeafce05740b9d36aab307" maria
              one_user _ _ Hshaped eq_refl)
    as (oid & r & hashed & Hoid & _ & Hhash & _ & _ & Hbody & _).
  injection Hoid as <-. injection Hhash as <-. exact Hbody.
Defined.

(** C7: Delete of an existing identifier answers with success and
    [deleted_count] 1, and the document is gone; after that, Delete, Get and
    Update on the same identifier raise NotFound (404).  When requests
    running concurrently remove the document between the existence check
    and the delete, so that the collection deletes nothing, the handler
    still answers with success, and [deleted_count] is 0. *)
Theorem C7_delete E user_id oid r w :
  ObjectId_new user_id = Some oid →
  unique_ids (users w) →
  by_key oid (users w) = Some r →
  let w' := (run E (delete_user user_id) w).2 in
  (run E (delete_user user_id) w).1
  = inr (success_response (DataDoc {[ "deleted_count" := VInt 1 ]})
           "Usuario eliminado exitosamente" 200) ∧
  by_key oid (users w') = None ∧
  (∀ oid', oid' ≠ oid → by_key oid' (users w') = by_key oid' (users w)) ∧
  (∃ e, status_code e = 404 ∧
        (run E (delete_user user_id) w').1 = inl (HTTP e) ∧
        (run E (get_user user_id) w').1 = inl (HTTP e) ∧
        (∀ user_update,
           (run E (update_user user_id user_update) w').1 = inl (HTTP e)) ∧
        users (run E (delete_user user_id) w').2 = users w') ∧
  (∀ others,
     let c1 := others (length (trace w)) (users w) in
     let c2 := others (S (length (trace w))) c1 in
     is_Some (by_key oid c1) → by_key oid c2 = None →
     exec others E (delete_user user_id) w
     = (inr (success_response (DataDoc {[ "deleted_count" := VInt 0 ]})
               "Usuario eliminado exitosamente" 200),
        mkWorld c2 (CDeleteOne (by_id oid) :: CFindOne (by_id oid) :: trace w))).
Proof.
  intros Hoid Hids Hkey w'. subst w'.
  rewrite (delete_user_run _ _ _ _ _ Hoid Hkey). cbn [fst snd].
  pose proof (delete_one_gone oid (users w) Hids) as Hgone.
  split; [done|]. split; [done|]. split.
  { intros oid' Hne. by apply delete_one_other. }
  split.
  - exists (NotFoundException "Usuario" (Some user_id)).
    split; [done|].
    set (w1 := mkWorld _ _).
    assert (by_key oid (users w1) = None) as Hgone1 by exact Hgone.
    rewrite (delete_user_missing _ _ _ _ Hoid Hgone1).
    rewrite (get_user_missing _ _ _ _ Hoid Hgone1).
    split; [done|]. split; [done|]. split; [|done].
    intros user_update. by rewrite (update_user_missing _ _ _ _ _ Hoid Hgone1).
  - intros others [r1 Hr1] Hc2.
    pose proof (delete_user_exec E others user_id oid r1 w Hoid Hr1) as Hrun.
    cbv zeta in Hrun. rewrite Hrun.
    by rewrite (delete_one_missing _ _ Hc2).
Qed.

Lemma C7_witness :
  (run sample_env (delete_user "68eeafce05740b9d36aab307") one_user).1
  = inr (success_response (DataDoc {[ "deleted_count" := VInt 1 ]})
           "Usuario eliminado exitosamente" 200) ∧
  by_key (sample_oid "07")
    (users (run sample_env (delete_user "68eeafce05740b9d36aab307") one_user).2)
  = None ∧
  (exec concurrent_delete sample_env
     (delete_user "68eeafce05740b9d36aab307") one_user).1
  = inr (success_response (DataDoc {[ "deleted_count" := VInt 0 ]})
           "Usuario eliminado exitosamente" 200).
Proof.
  destruct (C7_delete sample_env "68eeafce05740b9d36aab307" (sample_oid "07")
              (sample_oid "07", juan_doc) one_user eq_refl
              (unique_ids_one _) eq_refl)
    as (Hok & Hgone & _ & _ & Hrace).
  split; [exact Hok|]. split; [exact Hgone|].
  rewrite (Hrace concurrent_delete); [reflexivity | by eexists | reflexivity].
Defined.

(** C8, as stated, fails: the AlreadyExists error raised by Create carries
    the resource "Usuario" and an identifier that is the word "email", a
    space, and then the email. *)
Lemma C8_create_conflict_context :
  ∃ e,
    raised (run sample_env (create_user juan) one_user).1 = Some e ∧
    status_code e = 409 ∧
    resource e = Some "Usuario" ∧ resource e ≠ Some "User" ∧
    identifier e = Some "email juan@email.com" ∧
    identifier e ≠ Some (email juan).
Proof. eexists. split; [reflexivity|]. by repeat split. Qed.

(** C8, amended: the bad-request error has status 400, AlreadyExists 409 and
    NotFound 404; every error carries its message, and its resource and
    identifier, when present and not empty, appear unchanged in the error's
    detail and in the data of the error envelope.  The errors of the
    handlers: a malformed identifier is reported with that identifier, a
    missing user with resource "Usuario" and the identifier, and an email
    conflict in Create with resource "Usuario" and the identifier "email "
    followed by the email. *)
Theorem C8_error_taxonomy :
  (∀ msg res idn,
     status_code (BadRequestException msg res idn) = 400 ∧
     message (BadRequestException msg res idn) = msg ∧
     resource (BadRequestException msg res idn) = res ∧
     identifier (BadRequestException msg res idn) = idn) ∧
  (∀ res idn,
     status_code (AlreadyExistsException res idn) = 409 ∧
     resource (AlreadyExistsException res idn) = Some res ∧
     identifier (AlreadyExistsException res idn) = idn) ∧
  (∀ res idn,
     status_code (NotFoundException res idn) = 404 ∧
     resource (NotFoundException res idn) = Some res ∧
     identifier (NotFoundException res idn) = idn) ∧
  (∀ e,
     detail e !! "message" = Some (VStr (message e)) ∧
     success (error_response e) = false ∧
     statusCode (error_response e) = status_code e ∧
     env_message (error_response e) = message e ∧
     ∃ d, data (error_response e) = DataDoc d ∧
       (∀ s, resource e = Some s → s ≠ "" →
          detail e !! "resource" = Some (VStr s) ∧
          d !! "resource" = Some (VStr s)) ∧
       (∀ s, identifier e = Some s → s ≠ "" →
          detail e !! "identifier" = Some (VStr s) ∧
          d !! "identifier" = Some (VStr s))) ∧
  (∀ E user w r,
     r ∈ users w → has_email (email user) r = true →
     ∃ e, raised (run E (create_user user) w).1 = Some e ∧
          status_code e = 409 ∧
          resource e = Some "Usuario" ∧
          identifier e = Some ("email " +:+ email user)) ∧
  (∀ E user_id w,
     is_valid user_id = false →
     ∃ e, raised (run E (get_user user_id) w).1 = Some e ∧
          status_code e = 400 ∧ resource e = None ∧
          identifier e = Some user_id) ∧
  (∀ E user_id oid w,
     ObjectId_new user_id = Some oid → by_key oid (users w) = None →
     ∃ e, raised (run E (get_user user_id) w).1 = Some e ∧
          status_code e = 404 ∧ resource e = Some "Usuario" ∧
          identifier e = Some user_id).
Proof.
  split; [done|]. split; [done|]. split; [done|]. split; [|split; [|split]].
  - intros e. split; [apply detail_message|]. do 3 (split; [done|]).
    eexists. split; [reflexivity|]. split.
    + intros s Hs Hne. rewrite lookup_delete_ne by done.
      rewrite detail_resource, Hs. destruct s; done.
    + intros s Hs Hne. rewrite lookup_delete_ne by done.
      rewrite detail_identifier, Hs. destruct s; done.
  - intros E user w r Hin Hheld.
    destruct (find_is_Some _ _ _ Hin Hheld) as [r' Hfind].
    rewrite (create_user_conflict _ _ _ _ Hfind). by eexists.
  - intros E user_id w Hbad. rewrite (get_user_invalid _ _ _ Hbad). by eexists.
  - intros E user_id oid w Hoid Hkey.
    rewrite (get_user_missing _ _ _ _ Hoid Hkey). by eexists.
Qed.

Lemma C8_witness :
  ∃ e, raised (run sample_env (create_user juan) one_user).1 = Some e ∧
       status_code e = 409 ∧
       resource e = Some "Usuario" ∧
       identifier e = Some ("email " +:+ email juan) ∧
       ∃ d, data (error_response e) = DataDoc d ∧
            d !! "resource" = Some (VStr "Usuario") ∧
            d !! "identifier" = Some (VStr "email juan@email.com").
Proof.
  destruct C8_error_taxonomy as (_ & _ & _ & Henv & Hcreate & _).
  destruct (Hcreate sample_env juan one_user (sample_oid "07", juan_doc))
    as (e & Hraised & Hst & Hres & Hid); [by left | reflexivity |].
  exists e. do 4 (split; [done|]).
  destruct (Henv e) as (_ & _ & _ & _ & d & Hd & Hr & Hi).
  exists d. split; [done|]. split.
  - by apply (Hr "Usuario").
  - by apply (Hi "email juan@email.com").
Defined.

(** C10: for a collection holding N documents, List succeeds; its data are
    exactly those N documents, in storage order, each with its key as a
    string, and the envelope's count is the length of the data. *)
Theorem C10_list_returns_all E w :
  ∃ resp docs,
    run E get_all_users w
    = (inr resp, mkWorld (users w) (CFind [] :: trace w)) ∧
    success resp = true ∧ statusCode resp = 200 ∧
    data resp = DataList docs ∧
    docs = returned <$> users w ∧
    length docs = length (users w) ∧
    count resp = Some (Z.of_nat (length docs)).
Proof.
  eexists _, _. rewrite get_all_users_run. cbn.
  repeat split. by rewrite length_fmap.
Qed.

(** * Further properties *)

(** ** Identifiers: [ObjectId(s)] and [str(oid)] *)

Lemma nibble_cases (P : N → Prop) :
  P 0%N → P 1%N → P 2%N → P 3%N → P 4%N → P 5%N → P 6%N → P 7%N →
  P 8%N → P 9%N → P 10%N → P 11%N → P 12%N → P 13%N → P 14%N → P 15%N →
  ∀ h, (h < 16)%N → P h.
Proof.
  intros ? ? ? ? ? ? ? ? ? ? ? ? ? ? ? ? h Hh.
  destruct h as [|p]; [done|].
  do 4 (destruct p as [p|p|]; try done; try lia).
Qed.

Lemma hex_value_digit h : (h < 16)%N → hex_value (hex_digit h) = Some h.
Proof. revert h. by apply nibble_cases. Qed.

Lemma is_space_digit h : (h < 16)%N → is_space (hex_digit h) = false.
Proof. revert h. by apply nibble_cases. Qed.

Lemma is_lower_hex_digit h : (h < 16)%N → is_lower_hex (hex_digit h) = true.
Proof. revert h. by apply nibble_cases. Qed.

Lemma byte_of_nibbles_split b :
  byte_of_nibbles (Byte.to_N b / 16) (Byte.to_N b mod 16) = b.
Proof.
  unfold byte_of_nibbles.
  rewrite <- (N.div_mod (Byte.to_N b) 16) by done.
  by rewrite <- ascii_of_byte_via_N, byte_of_ascii_of_byte.
Qed.

Lemma to_N_nibbles top bot :
  (top < 16)%N → (bot < 16)%N →
  Byte.to_N (byte_of_nibbles top bot) = (16 * top + bot)%N.
Proof.
  intros Ht Hb. unfold byte_of_nibbles. apply Byte.to_of_N.
  rewrite byte_of_ascii_via_N, N_ascii_embedding by lia. done.
Qed.

Lemma hex_value_bound c v : hex_value c = Some v → (v < 16)%N.
Proof.
  unfold hex_value. cbv zeta. generalize (N_of_ascii c). intros n.
  repeat case_match; intros [= <-];
    repeat match goal with
    | H : (_ && _) = true |- _ => apply andb_true_iff in H as [? ?]
    | H : (_ <=? _)%N = true |- _ => apply N.leb_le in H
    end; lia.
Qed.

Lemma hex_digit_lower c v :
  is_lower_hex c = true → hex_value c = Some v → hex_digit v = c.
Proof.
  pose proof (ascii_N_embedding c) as Hc. revert Hc.
  unfold is_lower_hex, hex_value, hex_digit. cbv zeta.
  generalize (N_of_ascii c). intros n Hc.
  destruct ((48 <=? n)%N && (n <=? 57)%N) eqn:Hd.
  - intros _ [= <-]. apply andb_true_iff in Hd as [?%N.leb_le ?%N.leb_le].
    rewrite (proj2 (N.ltb_lt _ _)) by lia.
    by replace (48 + (n - 48))%N with n by lia.
  - simpl. intros Hl. rewrite Hl. intros [= <-].
    apply andb_true_iff in Hl as [?%N.leb_le ?%N.leb_le].
    rewrite (proj2 (N.ltb_ge _ _)) by lia.
    by replace (87 + (n - 87))%N with n by lia.
Qed.

Lemma fromhex_hexlify bs : fromhex (hexlify bs) = Some bs.
Proof.
  induction bs as [|b bs IH]; [done|]. cbn [hexlify fromhex].
  pose proof (Byte.to_N_bounded b) as Hb.
  assert (Byte.to_N b / 16 < 16)%N as Hhi.
  { apply N.Div0.div_lt_upper_bound. lia. }
  assert (Byte.to_N b mod 16 < 16)%N as Hlo by (by apply N.mod_lt).
  rewrite (is_space_digit _ Hhi), (hex_value_digit _ Hhi),
    (hex_value_digit _ Hlo), IH.
  cbn. by rewrite byte_of_nibbles_split.
Qed.

Lemma hexlify_length bs : String.length (hexlify bs) = (2 * length bs)%nat.
Proof. induction bs as [|b bs IH]; simpl; [done|]. rewrite IH. lia. Qed.

Lemma hexlify_lower bs : all_chars is_lower_hex (hexlify bs) = true.
Proof.
  induction bs as [|b bs IH]; [done|]. cbn [hexlify all_chars].
  pose proof (Byte.to_N_bounded b) as Hb.
  rewrite !is_lower_hex_digit, IH; [done| |].
  - by apply N.mod_lt.
  - apply N.Div0.div_lt_upper_bound. lia.
Qed.

Lemma ObjectId_new_str o : twelve_bytes o → ObjectId_new (str o) = Some o.
Proof.
  unfold twelve_bytes, ObjectId_new, str. intros Hlen.
  rewrite hexlify_length, Hlen. simpl. rewrite fromhex_hexlify. by destruct o.
Qed.

(** X1: the string form of a twelve-byte key is a 24-character lowercase
    hexadecimal token; [ObjectId.is_valid] accepts it and [ObjectId(...)]
    gives the key back. *)
Theorem X1_str_then_ObjectId (o : ObjectId) :
  twelve_bytes o →
  lower_hex24 (str o) = true ∧
  is_valid (str o) = true ∧
  ObjectId_new (str o) = Some o.
Proof.
  unfold twelve_bytes. intros Hlen.
  assert (lower_hex24 (str o) = true) as Hlow.
  { unfold lower_hex24, str. rewrite hexlify_length, Hlen, hexlify_lower. done. }
  assert (ObjectId_new (str o) = Some o) as Hnew.
  { unfold ObjectId_new, str. rewrite hexlify_length, Hlen. simpl.
    rewrite fromhex_hexlify. by destruct o. }
  split; [done|]. split; [|done]. by apply (ObjectId_new_is_valid _ o).
Qed.

Lemma X1_witness :
  twelve_bytes (sample_oid "07") ∧
  ObjectId_new (str (sample_oid "07")) = Some (sample_oid "07").
Proof.
  split; [reflexivity|].
  apply (X1_str_then_ObjectId (sample_oid "07")). reflexivity.
Defined.


Lemma fromhex_lower n s bs :
  (String.length s ≤ n)%nat → all_chars is_lower_hex s = true →
  fromhex s = Some bs → hexlify bs = s.
Proof.
  revert s bs. induction n as [|n IH]; intros s bs Hlen Hall Hbs.
  - destruct s; [by injection Hbs as <- | simpl in Hlen; lia].
  - destruct s as [|c [|c' rest]].
    + by injection Hbs as <-.
    + cbn [fromhex] in Hbs. cbn [all_chars] in Hall.
      apply andb_true_iff in Hall as [Hc _].
      rewrite (is_hex_not_space c (is_lower_hex_is_hex c Hc)) in Hbs.
      by destruct (hex_value c).
    + cbn [all_chars] in Hall.
      apply andb_true_iff in Hall as [Hc [Hc' Hrest]%andb_true_iff].
      cbn [fromhex] in Hbs.
      rewrite (is_hex_not_space c (is_lower_hex_is_hex c Hc)) in Hbs.
      destruct (hex_value c) as [top|] eqn:Htop; [|done].
      destruct (hex_value c') as [bot|] eqn:Hbot; [|done].
      destruct (fromhex rest) as [bs'|] eqn:Hrest'; [|done].
      injection Hbs as <-. cbn [hexlify].
      pose proof (hex_value_bound _ _ Htop). pose proof (hex_value_bound _ _ Hbot).
      rewrite to_N_nibbles by done.
      replace ((16 * top + bot) / 16)%N with top
        by (apply N.div_unique with bot; [done | lia]).
      replace ((16 * top + bot) mod 16)%N with bot
        by (apply N.mod_unique with top; [done | lia]).
      rewrite (hex_digit_lower c top), (hex_digit_lower c' bot) by done.
      do 2 f_equal. apply IH; [simpl in Hlen; lia | done | done].
Qed.

(** X2: every 24-character lowercase hexadecimal token parses to a
    twelve-byte key whose string form is the token itself. *)
Theorem X2_ObjectId_then_str (s : string) :
  lower_hex24 s = true →
  ∃ o, ObjectId_new s = Some o ∧ twelve_bytes o ∧ str o = s.
Proof.
  intros Hlow. pose proof Hlow as [Hlen Hall]%andb_true_iff.
  apply Nat.eqb_eq in Hlen.
  destruct (is_valid_ObjectId_new s) as [o Ho].
  { by apply hex24_is_valid, lower_hex24_hex24. }
  exists o. split; [done|]. unfold ObjectId_new in Ho. rewrite Hlen in Ho.
  simpl in Ho. destruct (fromhex s) as [bs|] eqn:Hbs; [|done].
  injection Ho as <-. unfold twelve_bytes, str. cbn [binary].
  pose proof (fromhex_lower _ s bs (Nat.le_refl _) Hall Hbs) as Hs.
  split; [|done]. pose proof (hexlify_length bs) as Hl.
  rewrite Hs, Hlen in Hl. lia.
Qed.

Lemma X2_witness :
  lower_hex24 "68eeafce05740b9d36aab307" = true ∧
  ∃ o, ObjectId_new "68eeafce05740b9d36aab307" = Some o ∧ twelve_bytes o ∧
       str o = "68eeafce05740b9d36aab307".
Proof.
  split; [reflexivity|].
  apply (X2_ObjectId_then_str "68eeafce05740b9d36aab307"). reflexivity.
Defined.

Lemma fromhex_count n s bs :
  (String.length s ≤ n)%nat → fromhex s = Some bs →
  (2 * length bs + count_chars is_space s = String.length s)%nat.
Proof.
  revert s bs. induction n as [|n IH]; intros s bs Hlen Hbs.
  - destruct s; [by injection Hbs as <- | simpl in Hlen; lia].
  - destruct s as [|c rest]; [by injection Hbs as <-|].
    cbn [fromhex] in Hbs. cbn [count_chars String.length].
    destruct (is_space c) eqn:Hsp.
    + simpl in Hlen. specialize (IH rest bs ltac:(lia) Hbs). lia.
    + destruct (hex_value c) as [top|]; [|done].
      destruct rest as [|c' rest']; [done|].
      destruct (hex_value c') as [bot|] eqn:Hbot; [|done].
      destruct (fromhex rest') as [bs'|] eqn:Hrest; [|done].
      injection Hbs as <-. cbn [count_chars String.length length].
      rewrite (is_hex_not_space c') by (unfold is_hex; by rewrite Hbot).
      simpl in Hlen. specialize (IH rest' bs' ltac:(lia) Hrest). lia.
Qed.

Lemma all_hex_no_space s :
  all_chars is_hex_or_space s = true → count_chars is_space s = O →
  all_chars is_hex s = true.
Proof.
  induction s as [|c s IH]; [done|]. cbn [all_chars count_chars].
  unfold is_hex_or_space at 1. destruct (is_space c); [done|].
  rewrite orb_false_r. intros [-> ?]%andb_true_iff ?. by apply IH.
Qed.

Lemma all_hex_count s : all_chars is_hex s = true → count_chars is_space s = O.
Proof.
  induction s as [|c s IH]; [done|]. cbn [all_chars count_chars].
  intros [Hc ?]%andb_true_iff. rewrite (is_hex_not_space c Hc). by apply IH.
Qed.

(** X3: what [ObjectId(s)] accepts has 24 characters, two hexadecimal
    digits per byte of the key and whitespace for the rest: the key has at
    most twelve bytes, and exactly twelve precisely when the identifier is
    24 hexadecimal digits. *)
Theorem X3_parsed_key_length (s : string) (o : ObjectId) :
  ObjectId_new s = Some o →
  (2 * length (binary o) + count_chars is_space s = 24)%nat ∧
  (length (binary o) ≤ 12)%nat ∧
  (twelve_bytes o ↔ hex24 s = true).
Proof.
  intros Ho. pose proof (ObjectId_new_is_valid _ _ Ho) as Hvalid.
  destruct (is_valid_shape _ Hvalid) as [Hlen Hshape].
  unfold ObjectId_new in Ho. rewrite Hlen in Ho. simpl in Ho.
  destruct (fromhex s) as [bs|] eqn:Hbs; [|done]. injection Ho as <-.
  cbn [binary]. pose proof (fromhex_count _ s bs (Nat.le_refl _) Hbs) as Hcount.
  rewrite Hlen in Hcount. split; [done|]. split; [lia|].
  unfold twelve_bytes, hex24. cbn [binary]. rewrite Hlen. simpl. split.
  - intros H12. apply all_hex_no_space; [done | lia].
  - intros Hall%all_hex_count. lia.
Qed.

Lemma X3_witness :
  ∃ o, ObjectId_new "68eeafce05740b9d36aab3  " = Some o ∧
       length (binary o) = 11%nat ∧ ¬ twelve_bytes o.
Proof.
  eexists. split; [reflexivity|].
  destruct (X3_parsed_key_length "68eeafce05740b9d36aab3  " _ eq_refl)
    as (_ & _ & Hiff).
  split; [reflexivity|]. intros H12%Hiff. discriminate H12.
Defined.

(** X4: [PyObjectId.validate] succeeds exactly on the strings [ObjectId]
    accepts and then returns the parsed key; on every other string it raises
    ValueError("Invalid ObjectId"), never InvalidId.  It gives back every
    twelve-byte key from its string form. *)
Theorem X4_validate :
  (∀ v o, PyObjectId_validate v = inr o ↔ ObjectId_new v = Some o) ∧
  (∀ v, ObjectId_new v = None →
        PyObjectId_validate v = inl (ValueError "Invalid ObjectId")) ∧
  (∀ v, PyObjectId_validate v ≠ inl ValidateInvalidId) ∧
  (∀ o, twelve_bytes o → PyObjectId_validate (str o) = inr o).
Proof.
  assert (∀ v o, ObjectId_new v = Some o → PyObjectId_validate v = inr o) as Hok.
  { intros v o Ho. unfold PyObjectId_validate.
    by rewrite (ObjectId_new_is_valid _ _ Ho), Ho. }
  assert (∀ v, ObjectId_new v = None →
             PyObjectId_validate v = inl (ValueError "Invalid ObjectId")) as Hbad.
  { intros v Hv. unfold PyObjectId_validate.
    destruct (is_valid v) eqn:Hvalid; [|done].
    destruct (is_valid_ObjectId_new _ Hvalid) as [o Ho]. congruence. }
  split; [|split; [done|split]].
  - intros v o. split; [|apply Hok].
    destruct (ObjectId_new v) as [o'|] eqn:Ho'.
    + rewrite (Hok _ _ Ho'). congruence.
    + by rewrite (Hbad _ Ho').
  - intros v. destruct (ObjectId_new v) as [o'|] eqn:Ho'.
    + by rewrite (Hok _ _ Ho').
    + by rewrite (Hbad _ Ho').
  - intros o Ho. apply Hok. unfold twelve_bytes in Ho. unfold ObjectId_new, str.
    rewrite hexlify_length, Ho. simpl. rewrite fromhex_hexlify. by destruct o.
Qed.

Lemma X4_witness :
  PyObjectId_validate "68EEAFCE05740B9D36AAB307" = inr (sample_oid "07") ∧
  PyObjectId_validate "123abc" = inl (ValueError "Invalid ObjectId") ∧
  PyObjectId_validate (str (sample_oid "07")) = inr (sample_oid "07").
Proof.
  destruct X4_validate as (Hiff & Hbad & _ & Hstr).
  split; [by apply Hiff|]. split; [by apply Hbad|]. by apply Hstr.
Defined.

(** ** What one request does to the collection *)

Lemma ObjectId_new_None s : is_valid s = false ↔ ObjectId_new s = None.
Proof.
  split.
  - intros Hbad. destruct (ObjectId_new s) as [o|] eqn:Ho; [|done].
    by rewrite (ObjectId_new_is_valid _ _ Ho) in Hbad.
  - intros Hnone. destruct (is_valid s) eqn:Hvalid; [|done].
    destruct (is_valid_ObjectId_new _ Hvalid) as [o Ho]. congruence.
Qed.

(** Case analysis on the run of one handler, by the lemmas above: the
    validation, the lookups, the hashing and the insert are decided one
    after the other and the run is rewritten to its result. *)
Ltac run_cases E w :=
  match goal with
  | |- context [run E get_all_users w] => rewrite (get_all_users_run E w)
  | |- context [run E (get_user ?i) w] =>
      let Hv := fresh "Hvalid" in let Ho := fresh "Hoid" in
      let Hk := fresh "Hkey" in
      destruct (is_valid i) eqn:Hv;
      [ destruct (is_valid_ObjectId_new _ Hv) as [?oid Ho];
        destruct (by_key oid (users w)) as [?r|] eqn:Hk;
        [ rewrite (get_user_found E _ _ _ _ Ho Hk)
        | rewrite (get_user_missing E _ _ _ Ho Hk) ]
      | rewrite (get_user_invalid E _ _ Hv) ]
  | |- context [run E (delete_user ?i) w] =>
      let Hv := fresh "Hvalid" in let Ho := fresh "Hoid" in
      let Hk := fresh "Hkey" in
      destruct (is_valid i) eqn:Hv;
      [ destruct (is_valid_ObjectId_new _ Hv) as [?oid Ho];
        destruct (by_key oid (users w)) as [?r|] eqn:Hk;
        [ rewrite (delete_user_run E _ _ _ _ Ho Hk)
        | rewrite (delete_user_missing E _ _ _ Ho Hk) ]
      | rewrite (delete_user_invalid E _ _ Hv) ]
  | |- context [run E (update_user ?i ?u) w] =>
      let Hv := fresh "Hvalid" in let Ho := fresh "Hoid" in
      let Hk := fresh "Hkey" in let Hf := fresh "Hfind" in
      destruct (is_valid i) eqn:Hv;
      [ destruct (is_valid_ObjectId_new _ Hv) as [?oid Ho];
        destruct (by_key oid (users w)) as [?r|] eqn:Hk;
        [ destruct (List.find
            (λ r, has_email (email u) r && negb (has_key oid r)) (users w))
            as [?r'|] eqn:Hf;
          [ rewrite (update_user_conflict E _ _ _ _ _ _ Ho Hk Hf)
          | let Hh := fresh "Hhash" in
            destruct (bcrypt_hashpw E (password u)
                        (next_salt E (2 + length (trace w))))
              as [?hashed|] eqn:Hh;
            [ rewrite (update_user_run E _ _ _ _ _ _ Ho Hk Hf Hh)
            | rewrite (update_user_refused E _ _ _ _ _ Ho Hk Hf Hh) ] ]
        | rewrite (update_user_missing E _ _ _ _ Ho Hk) ]
      | rewrite (update_user_invalid E _ _ _ Hv) ]
  | |- context [run E (create_user ?u) w] =>
      let Hf := fresh "Hfind" in let Hd := fresh "Hdup" in
      destruct (List.find (has_email (email u)) (users w)) as [?r|] eqn:Hf;
      [ rewrite (create_user_conflict E _ _ _ Hf)
      | let Hh := fresh "Hhash" in
        destruct (bcrypt_hashpw E (password u)
                    (next_salt E (S (length (trace w)))))
          as [?hashed|] eqn:Hh;
        [ rewrite (create_user_run E _ _ _ Hf Hh); case_bool_decide as Hd
        | rewrite (create_user_refused E _ _ Hf Hh) ] ]
  end.

(** X5: for a well-formed identifier under which nothing is stored, Get,
    Update and Delete each raise NotFound (404) with resource "Usuario" and
    the identifier as given, after one lookup and without changing the
    collection. *)
Theorem X5_absent_not_found E user_id oid user_update w :
  ObjectId_new user_id = Some oid →
  oid ∉ (users w).*1 →
  let e := NotFoundException "Usuario" (Some user_id) in
  let w' := mkWorld (users w) (CFindOne (by_id oid) :: trace w) in
  status_code e = 404 ∧ resource e = Some "Usuario" ∧
  identifier e = Some user_id ∧
  run E (get_user user_id) w = (inl (HTTP e), w') ∧
  run E (update_user user_id user_update) w = (inl (HTTP e), w') ∧
  run E (delete_user user_id) w = (inl (HTTP e), w').
Proof.
  intros Hoid Habsent%by_key_None e w'. do 3 (split; [done|]).
  split; [by apply get_user_missing|].
  split; [by apply update_user_missing | by apply delete_user_missing].
Qed.

Lemma X5_witness :
  run sample_env (get_user "68eeafce05740b9d36aab308") one_user
  = (inl (not_found "68eeafce05740b9d36aab308"),
     mkWorld (users one_user) [CFindOne (by_id (sample_oid "08"))]).
Proof.
  apply (X5_absent_not_found sample_env "68eeafce05740b9d36aab308"
           (sample_oid "08") maria one_user eq_refl).
  change (users one_user).*1 with [sample_oid "07"].
  intros Hin%list_elem_of_singleton. vm_compute in Hin. discriminate.
Defined.

(** X6: Get and List only read: whatever the identifier and the collection,
    the collection is the same afterwards, bcrypt is not called, and the
    collection is called at most once by Get and exactly once by List. *)
Theorem X6_reads_only E user_id w :
  users (run E (get_user user_id) w).2 = users w ∧
  bcrypt_calls (run E (get_user user_id) w).2 = bcrypt_calls w ∧
  (store_calls (run E (get_user user_id) w).2 ≤ S (store_calls w))%nat ∧
  users (run E get_all_users w).2 = users w ∧
  bcrypt_calls (run E get_all_users w).2 = bcrypt_calls w ∧
  store_calls (run E get_all_users w).2 = S (store_calls w).
Proof.
  rewrite get_all_users_run.
  split; [|split; [|split]]; [| | |done].
  all: run_cases E w; cbn; unfold store_calls, bcrypt_calls; cbn; lia || done.
Qed.

(** X7: a request that ends in an exception leaves the collection as it
    was; when the exception is a classified error, bcrypt was not called
    either. *)
Theorem X7_failure_changes_nothing E r w x w' :
  run E (handler r) w = (inl x, w') →
  users w' = users w ∧
  (∀ e, x = HTTP e → bcrypt_calls w' = bcrypt_calls w).
Proof.
  destruct r as [|user|user_id|user_id user|user_id]; cbn [handler];
    run_cases E w; intros [= <- <-]; by split.
Qed.

Lemma X7_witness :
  users (run sample_env (handler (Create juan)) one_user).2 = users one_user.
Proof.
  eapply (X7_failure_changes_nothing sample_env (Create juan) one_user).
  reflexivity.
Defined.

(** X8: a handler running on its own never ends in InvalidId, KeyError or
    TypeError.  It answers, raises a classified error, or ends in one of two
    unclassified errors: DuplicateKeyError, only in Create and only when the
    generated key is already stored; the ValueError of [bcrypt.hashpw], only
    in Create and Update and only when bcrypt refuses the password. *)
Theorem X8_no_unclassified_error E r w :
  let n := length (trace w) in
  match (run E (handler r) w).1 with
  | inr _ | inl (HTTP _) => True
  | inl DuplicateKeyError =>
      (∃ user, r = Create user) ∧ next_ObjectId E (3 + n) ∈ (users w).*1
  | inl HashValueError =>
      (∃ user,
         r = Create user ∧
         bcrypt_hashpw E (password user) (next_salt E (1 + n)) = None) ∨
      (∃ user_id user_update,
         r = Update user_id user_update ∧
         bcrypt_hashpw E (password user_update) (next_salt E (2 + n)) = None)
  | inl _ => False
  end.
Proof.
  intros n. subst n.
  destruct r as [|user|user_id|user_id user|user_id]; cbn [handler];
    run_cases E w; cbn; eauto 6.
Qed.

Lemma X8_witness :
  (run sample_env (handler (Create ana)) one_user).1 = inl HashValueError ∧
  bcrypt_hashpw sample_env (password ana) (next_salt sample_env 1) = None.
Proof.
  split; [reflexivity|].
  pose proof (X8_no_unclassified_error sample_env (Create ana) one_user) as H.
  change (run sample_env (handler (Create ana)) one_user).1
    with (@inl exn envelope HashValueError) in H.
  cbv zeta in H. destruct H as [(user & [= <-] & Hhash)|(? & ? & [=] & _)].
  exact Hhash.
Defined.

(** ** Statuses, whatever runs concurrently *)

(** Decides the next test of a partly evaluated handler. *)
Ltac next_case :=
  match goal with
  | |- context [doc_truthy ?o] => destruct (doc_truthy o) eqn:?
  | |- context [stringify_id_opt ?o] =>
      destruct o as [?d|] eqn:?; unfold stringify_id_opt, stringify_id, getitem
  | |- context [insert_one ?d ?o ?c] => destruct (insert_one d o c) eqn:?
  | |- context [bcrypt_hashpw ?E ?pw ?salt] =>
      destruct (bcrypt_hashpw E pw salt) eqn:?
  | |- context [delete_one ?q ?c] => destruct (delete_one q c) eqn:?
  | |- context [match ?d !! "_id" with _ => _ end] =>
      destruct (d !! "_id") eqn:?
  end.

Ltac evaluate := step; repeat (next_case; step).

Lemma exec_bind {A B} others E (p : prog A) (f : A → prog B) w :
  exec others E (p ≫= f) w
  = match exec others E p w with
    | (inr a, w') => exec others E (f a) w'
    | (inl x, w') => (inl x, w')
    end.
Proof.
  revert w. induction p as [a|x|q k IH|q k IH|d k IH|q upd k IH|q k IH|k IH
                            |pw salt k IH]; intros w; try done.
  all: cbn [mbind prog_mbind prog_bind exec]; try apply IH.
  - destruct (insert_one _ _ _); [apply IH | done].
  - destruct (delete_one _ _). apply IH.
  - destruct (bcrypt_hashpw _ _ _); [apply IH | done].
Qed.

Lemma stringify_ids_exec others E l w :
  ∃ r, exec others E (stringify_ids l) w = (r, w) ∧
       match r with inl (HTTP _) => False | _ => True end.
Proof.
  induction l as [|d rest (r & Hr & Hcls)].
  - by exists (inr []).
  - cbn [stringify_ids]. unfold stringify_id, getitem.
    destruct (d !! "_id") as [v|]; [|by eexists].
    step. rewrite exec_bind, Hr. destruct r as [x|rest']; by eexists.
Qed.

(** X9: whatever the collection holds and whatever other requests do between
    the store calls, each handler answers with the success status of its
    route and raises no classified error outside the statuses its route
    declares: List 200; Create 201 or 409; Get 200, 400 or 404; Update 200,
    400, 404 or 409; Delete 200, 400 or 404. *)
Theorem X9_declared_statuses others E w :
  answers 200 [] (exec others E get_all_users w).1 ∧
  (∀ user, answers 201 [409] (exec others E (create_user user) w).1) ∧
  (∀ user_id, answers 200 [400; 404] (exec others E (get_user user_id) w).1) ∧
  (∀ user_id user_update,
     answers 200 [400; 404; 409]
       (exec others E (update_user user_id user_update) w).1) ∧
  (∀ user_id, answers 200 [400; 404] (exec others E (delete_user user_id) w).1).
Proof.
  split; [|split; [|split; [|split]]].
  - unfold get_all_users. step. rewrite exec_bind.
    match goal with
    | |- context [exec others E (stringify_ids ?l) ?w1] =>
        destruct (stringify_ids_exec others E l w1) as (r & -> & Hcls)
    end.
    destruct r as [[]|]; done.
  - intros user. unfold create_user. evaluate; cbn; try done; set_solver.
  - intros user_id. unfold get_user.
    destruct (is_valid user_id); [|cbn; set_solver].
    unfold ObjectId_call. destruct (ObjectId_new user_id); [|done].
    evaluate; cbn; try done; set_solver.
  - intros user_id user_update. unfold update_user.
    destruct (is_valid user_id); [|cbn; set_solver].
    unfold ObjectId_call. destruct (ObjectId_new user_id); [|done].
    evaluate; cbn; try done; set_solver.
  - intros user_id. unfold delete_user.
    destruct (is_valid user_id); [|cbn; set_solver].
    unfold ObjectId_call. destruct (ObjectId_new user_id); [|done].
    evaluate; cbn; try done; set_solver.
Qed.

(** ** The shape of stored documents *)

Lemma user_fields_dom u hashed : dom (user_fields u hashed) = user_keys.
Proof.
  unfold user_fields, model_dump, user_keys.
  rewrite dom_insert_L, dom_delete_L, !dom_insert_L, dom_singleton_L.
  set_solver.
Qed.

Lemma shaped_insert u hashed oid c :
  shaped c → shaped (c ++ [(oid, user_fields u hashed)]).
Proof.
  intros Hc r [Hin| ->%list_elem_of_singleton]%elem_of_app; [by apply Hc|].
  apply user_fields_dom.
Qed.

Lemma shaped_update q u hashed c :
  shaped c → shaped (update_one q (user_fields u hashed) c).
Proof.
  intros Hc r' [Hin|(r & Hin & _ & ->)]%elem_of_update_one; [by apply Hc|].
  cbn [snd]. rewrite dom_union_L, user_fields_dom, (Hc r Hin). set_solver.
Qed.

Lemma shaped_delete q c : shaped c → shaped (delete_one q c).2.
Proof.
  intros Hc r Hin. apply Hc.
  eapply elem_of_sublist; [done | apply delete_one_sublist].
Qed.

Lemma handler_shaped E r w :
  shaped (users w) → shaped (users (run E (handler r) w).2).
Proof.
  intros Hw. destruct r as [|user|user_id|user_id user|user_id]; cbn [handler];
    run_cases E w; cbn [snd users]; try done.
  - by apply shaped_insert.
  - by apply shaped_update.
  - by apply shaped_delete.
Qed.

(** X10: if every stored document has exactly the fields name, email and
    hashed_password, this is still so after any sequence of requests; in
    particular no request ever stores a [password] field.  The empty
    collection qualifies, so this holds for every collection filled by the
    service alone. *)
Theorem X10_documents_keep_their_shape E rs w :
  shaped (users w) →
  shaped (users (serve E rs w)) ∧
  (∀ r, r ∈ users (serve E rs w) →
        r.2 !! "password" = None ∧
        is_Some (r.2 !! "name") ∧ is_Some (r.2 !! "email") ∧
        is_Some (r.2 !! "hashed_password")).
Proof.
  intros Hw.
  assert (shaped (users (serve E rs w))) as Hs.
  { revert w Hw. induction rs as [|r rs IH]; intros w Hw; [done|].
    cbn [serve]. by apply IH, handler_shaped. }
  split; [done|]. intros r Hin. specialize (Hs r Hin).
  split.
  - apply not_elem_of_dom. rewrite Hs. unfold user_keys.
    rewrite !elem_of_union, !elem_of_singleton. by intros [[?|?]|?].
  - repeat split; apply elem_of_dom; rewrite Hs; unfold user_keys;
      rewrite !elem_of_union, !elem_of_singleton; auto.
Qed.

Lemma X10_witness :
  shaped (users empty_world) ∧
  shaped (users (serve sample_env
                   [Create juan; Create maria;
                    Update "68eeafce05740b9d36aab313" maria;
                    Delete "68eeafce05740b9d36aab313"] empty_world)).
Proof.
  assert (shaped (users empty_world)) as H0.
  { intros r Hin. by apply elem_of_nil in Hin. }
  split; [done|]. by apply (X10_documents_keep_their_shape sample_env _ empty_world).
Defined.

(** ** Which documents a request can add or remove *)

Lemma delete_one_length q c :
  (length c ≤ S (length (delete_one q c).2))%nat.
Proof.
  induction c as [|r c IH]; [simpl; lia|]. cbn [delete_one].
  destruct (selects q r); [simpl; lia|].
  destruct (delete_one q c) as [n c']. simpl in *. lia.
Qed.

(** X11: List, Get and Update never add or remove a document: the keys, in
    storage order, are the same afterwards.  Create leaves the keys as they
    are or appends one key that was not stored.  Delete removes at most one
    document and adds none. *)
Theorem X11_keys_after_a_request E w :
  (users (run E get_all_users w).2).*1 = (users w).*1 ∧
  (∀ user_id, (users (run E (get_user user_id) w).2).*1 = (users w).*1) ∧
  (∀ user_id user_update,
     (users (run E (update_user user_id user_update) w).2).*1 = (users w).*1) ∧
  (∀ user,
     (users (run E (create_user user) w).2).*1 = (users w).*1 ∨
     ∃ oid, (oid ∉ ((users w).*1)) ∧
            (users (run E (create_user user) w).2).*1
            = ((users w).*1 ++ [oid])) ∧
  (∀ user_id,
     sublist (users (run E (delete_user user_id) w).2) (users w) ∧
     (length (users w) ≤ S (length (users (run E (delete_user user_id) w).2)))%nat).
Proof.
  split; [by rewrite get_all_users_run|].
  split; [intros user_id; by run_cases E w|].
  split; [intros user_id user_update; run_cases E w; cbn [snd users];
          by rewrite ?update_one_keys|].
  split.
  - intros user. run_cases E w; cbn [snd users]; try (by left).
    right. eexists. split; [done|]. by rewrite fmap_app.
  - intros user_id. run_cases E w; cbn [snd users]; try (split; [done | lia]).
    split; [apply delete_one_sublist | apply delete_one_length].
Qed.

(** ** Requests one after the other *)

(** X12: after a successful Create, Get with the identifier that Create
    returned answers 200 with the very document Create returned: the name
    and email given, the digest, and the identifier.  The key generated for
    the document is one of twelve bytes, as the driver's keys are. *)
Theorem X12_create_then_get E user w resp w1 :
  let oid := next_ObjectId E (3 + length (trace w)) in
  run E (create_user user) w = (inr resp, w1) →
  twelve_bytes oid →
  ∃ d,
    resp = success_response (DataDoc d) "Usuario creado exitosamente" 201 ∧
    d !! "_id" = Some (VStr (str oid)) ∧
    d !! "name" = Some (VStr (name user)) ∧
    d !! "email" = Some (VStr (email user)) ∧
    (run E (get_user (str oid)) w1).1
    = inr (success_response (DataDoc d) "Usuario obtenido exitosamente" 200).
Proof.
  intros oid Hrun Hlen. revert Hrun. run_cases E w; intros [= <- <-].
  fold oid in Hdup |- *.
  eexists. split; [reflexivity|].
  split; [apply lookup_insert_eq|].
  split; [unfold returned; rewrite lookup_insert_ne by done;
          apply user_fields_name|].
  split; [unfold returned; rewrite lookup_insert_ne by done;
          apply user_fields_email|].
  set (w1 := mkWorld _ _).
  assert (by_key oid (users w1) = Some (oid, user_fields user hashed)) as Hkey
    by apply (by_key_app_new _ _ _ Hdup).
  by rewrite (get_user_found E (str oid) oid _ w1 (ObjectId_new_str _ Hlen) Hkey).
Qed.

Lemma X12_witness :
  ∃ resp w1 d,
    run sample_env (create_user maria) one_user = (inr resp, w1) ∧
    doc_field "_id" (inr resp) = Some (VStr "68eeafce05740b9d36aab313") ∧
    (run sample_env (get_user "68eeafce05740b9d36aab313") w1).1
    = inr (success_response (DataDoc d) "Usuario obtenido exitosamente" 200) ∧
    d !! "email" = Some (VStr "maria@email.com").
Proof.
  eexists _, _. 
  destruct (X12_create_then_get sample_env maria one_user _ _ eq_refl)
    as (d & Hc & Hid & _ & Hem & Hget); [reflexivity|].
  exists d. split; [reflexivity|]. split; [|split; [exact Hget | exact Hem]].
  unfold doc_field, data_doc. rewrite Hc. exact Hid.
Defined.

Lemma delete_one_splits oid c r :
  by_key oid c = Some r →
  ∃ c1 c2, c = c1 ++ r :: c2 ∧ (delete_one (by_id oid) c).2 = c1 ++ c2.
Proof.
  unfold by_key. induction c as [|r0 c IH]; [done|].
  cbn [List.find delete_one]. rewrite selects_by_id.
  destruct (has_key oid r0).
  - intros [= ->]. by exists [], c.
  - intros Hfind. destruct (IH Hfind) as (c1 & c2 & -> & Hdel).
    exists (r0 :: c1), c2. split; [done|].
    destruct (delete_one _ _). simpl in *. by rewrite Hdel.
Qed.

(** X13: after a successful Update, Get on the same identifier answers 200
    with the document that Update returned, which carries the new name and
    the new email. *)
Theorem X13_update_then_get E user_id user_update w resp w1 :
  run E (update_user user_id user_update) w = (inr resp, w1) →
  ∃ d,
    resp = success_response (DataDoc d)
             "Usuario actualizado exitosamente" 200 ∧
    d !! "name" = Some (VStr (name user_update)) ∧
    d !! "email" = Some (VStr (email user_update)) ∧
    (run E (get_user user_id) w1).1
    = inr (success_response (DataDoc d) "Usuario obtenido exitosamente" 200).
Proof.
  run_cases E w; intros [= <- <-].
  eexists. split; [reflexivity|].
  split; [unfold returned; rewrite lookup_insert_ne by done;
          apply lookup_union_Some_l, user_fields_name|].
  split; [unfold returned; rewrite lookup_insert_ne by done;
          apply lookup_union_Some_l, user_fields_email|].
  set (w1 := mkWorld _ _).
  destruct (by_key_Some _ _ _ Hkey) as [_ Hr1].
  assert (by_key oid (users w1)
          = Some (oid, user_fields user_update hashed ∪ r.2)) as Hkey1.
  { subst w1. cbn [users]. rewrite by_key_update_one, Hkey. cbn.
    by rewrite Hr1. }
  by rewrite (get_user_found E user_id oid _ w1 Hoid Hkey1).
Qed.

Lemma X13_witness :
  ∃ resp w1 d,
    run sample_env (update_user "68eeafce05740b9d36aab307" maria) one_user
    = (inr resp, w1) ∧
    (run sample_env (get_user "68eeafce05740b9d36aab307") w1).1
    = inr (success_response (DataDoc d) "Usuario obtenido exitosamente" 200) ∧
    d !! "email" = Some (VStr "maria@email.com").
Proof.
  eexists _, _.
  destruct (X13_update_then_get sample_env "68eeafce05740b9d36aab307" maria
              one_user _ _ eq_refl) as (d & _ & _ & Hem & Hget).
  exists d. by split.
Defined.

(** X14: deleting a user frees its email.  With at most one document per
    email, after a successful Delete of the document that holds an email no
    stored document holds it, and a Create with that email is accepted
    (201) when bcrypt accepts its password and the generated key is new. *)
Theorem X14_delete_frees_email E user_id oid r user hashed w :
  let w1 := (run E (delete_user user_id) w).2 in
  ObjectId_new user_id = Some oid →
  by_key oid (users w) = Some r →
  has_email (email user) r = true →
  unique_emails (users w) →
  next_ObjectId E (3 + length (trace w1)) ∉ (users w1).*1 →
  bcrypt_hashpw E (password user) (next_salt E (1 + length (trace w1)))
  = Some hashed →
  holders (email user) (users w1) = [] ∧
  ∃ resp w2,
    run E (create_user user) w1 = (inr resp, w2) ∧
    success resp = true ∧ statusCode resp = 201 ∧
    length (holders (email user) (users w2)) = 1%nat.
Proof.
  intros w1 Hoid Hkey Hheld Huniq. subst w1.
  rewrite (delete_user_run _ _ _ _ _ Hoid Hkey). cbn [snd].
  set (w1 := mkWorld _ _). intros Hnew Hhash.
  destruct (delete_one_splits _ _ _ Hkey) as (c1 & c2 & Hc & Hdel).
  assert (holders (email user) (users w1) = []) as Hnone.
  { subst w1. cbn [users]. rewrite Hdel. specialize (Huniq (email user)).
    rewrite Hc in Huniq. unfold holders in *.
    rewrite List.filter_app in Huniq. cbn [List.filter] in Huniq.
    rewrite Hheld, length_app in Huniq. cbn [length] in Huniq.
    rewrite List.filter_app. apply nil_length_inv. rewrite length_app. lia. }
  split; [done|].
  assert (List.find (has_email (email user)) (users w1) = None) as Hfind.
  { apply find_is_None. intros r' Hin.
    destruct (has_email (email user) r') eqn:Hr'; [|done].
    assert (r' ∈ holders (email user) (users w1)) as Hmem.
    { unfold holders. apply list_elem_of_In, filter_In.
      split; [by apply list_elem_of_In | done]. }
    rewrite Hnone in Hmem. by apply elem_of_nil in Hmem. }
  rewrite (create_user_run _ _ _ _ Hfind Hhash).
  rewrite bool_decide_eq_false_2 by done.
  eexists _, _. split; [reflexivity|]. split; [done|]. split; [done|].
  cbn [users]. unfold holders in *. rewrite List.filter_app, Hnone.
  cbn [List.filter app]. by rewrite has_email_fields, bool_decide_eq_true_2.
Qed.

Lemma X14_witness :
  ∃ resp w2,
    run sample_env (create_user juan)
      (run sample_env (delete_user "68eeafce05740b9d36aab307") one_user).2
    = (inr resp, w2) ∧ statusCode resp = 201.
Proof.
  destruct (X14_delete_frees_email sample_env "68eeafce05740b9d36aab307"
              (sample_oid "07") (sample_oid "07", juan_doc) juan
              "$2b$12$salt3#secret1" one_user
              eq_refl eq_refl eq_refl (unique_emails_one _))
    as (_ & resp & w2 & Hrun & _ & Hst & _).
  - vm_compute. apply not_elem_of_nil.
  - reflexivity.
  - by exists resp, w2.
Defined.

(** X15: after a successful Create, List returns the documents it returned
    before, in the same order, followed by the created one. *)
Theorem X15_create_then_list E user w resp w1 :
  run E (create_user user) w = (inr resp, w1) →
  ∃ before d,
    data_list (run E get_all_users w).1 = Some before ∧
    data resp = DataDoc d ∧
    data_list (run E get_all_users w1).1 = Some (before ++ [d]).
Proof.
  intros Hrun. rewrite !get_all_users_run. revert Hrun.
  run_cases E w; intros [= <- <-]. cbn [fst snd users].
  eexists _, _. split; [reflexivity|]. split; [reflexivity|].
  cbn. by rewrite fmap_app.
Qed.

Lemma X15_witness :
  ∃ resp w1 l,
    run sample_env (create_user maria) one_user = (inr resp, w1) ∧
    data_list (run sample_env get_all_users w1).1 = Some l ∧
    length l = 2%nat.
Proof.
  eexists _, _.
  destruct (X15_create_then_list sample_env maria one_user _ _ eq_refl)
    as (before & d & Hb & _ & Hrun).
  eexists. split; [reflexivity|]. split; [exact Hrun|].
  vm_compute in Hb. injection Hb as <-. rewrite length_app. reflexivity.
Defined.

(** ** Requests that overlap *)

(** Names the collection on which the next lookup is served. *)
Ltac seen_as q c :=
  match goal with
  | |- context [find_one _ ?c0] =>
      change (find_one _ c0) with (find_one q c)
  end.

(** X16: Create and Update read the written document back without testing
    the result.  If other requests remove it between the write and the
    read-back, the handler ends in TypeError, not in a classified error,
    although the write was made (bcrypt having accepted the password). *)
Theorem X16_vanished_before_read_back others E w :
  let n := length (trace w) in
  (∀ user hashed,
     let c1 := others n (users w) in
     let c2 := others (3 + n)%nat c1 in
     let oid := next_ObjectId E (3 + n) in
     let stored := user_fields user hashed in
     let c3 := others (4 + n)%nat (c2 ++ [(oid, stored)]) in
     List.find (has_email (email user)) c1 = None →
     bcrypt_hashpw E (password user) (next_salt E (S n)) = Some hashed →
     oid ∉ c2.*1 →
     by_key oid c3 = None →
     ∃ w', exec others E (create_user user) w = (inl TypeError, w') ∧
           users w' = c3 ∧
           CInsertOne stored ∈ trace w') ∧
  (∀ user_id oid r user_update hashed,
     let c1 := others n (users w) in
     let c2 := others (1 + n)%nat c1 in
     let upd := user_fields user_update hashed in
     let c3 := update_one (by_id oid) upd (others (4 + n)%nat c2) in
     let c4 := others (5 + n)%nat c3 in
     ObjectId_new user_id = Some oid →
     by_key oid c1 = Some r →
     List.find (λ r, has_email (email user_update) r && negb (has_key oid r))
       c2 = None →
     bcrypt_hashpw E (password user_update) (next_salt E (2 + n)) = Some hashed →
     by_key oid c4 = None →
     ∃ w', exec others E (update_user user_id user_update) w
           = (inl TypeError, w') ∧
           users w' = c4 ∧
           CUpdateOne (by_id oid) upd ∈ trace w').
Proof.
  intros n. split.
  - intros user hashed c1 c2 oid stored c3 Hfree Hhash Hnew Hgone.
    unfold create_user. step. seen_as (by_email (email user)) c1.
    rewrite find_one_by_email, Hfree.
    cbn [fmap option_fmap option_map doc_truthy]. step.
    cbn [length]. fold n. rewrite Hhash. step.
    match goal with
    | |- context [insert_one ?d ?o ?c] =>
        change (insert_one d o c) with (insert_one stored oid c2)
    end.
    rewrite (insert_one_new _ _ _ Hnew). step. seen_as (by_id oid) c3.
    rewrite find_one_by_id, Hgone. cbn.
    eexists. split; [reflexivity|]. split; [done|]. cbn.
    rewrite !elem_of_cons. auto.
  - intros user_id oid r user_update hashed c1 c2 upd c3 c4
      Hoid Hkey Hfree Hhash Hgone.
    unfold update_user.
    rewrite (ObjectId_new_is_valid _ _ Hoid), (ObjectId_call_valid _ _ Hoid).
    step. seen_as (by_id oid) c1. rewrite find_one_by_id, Hkey.
    rewrite doc_truthy_fmap, bool_decide_eq_true_2 by eauto. step.
    seen_as (by_email_not_id (email user_update) oid) c2.
    rewrite find_one_by_email_not_id, Hfree.
    cbn [fmap option_fmap option_map doc_truthy]. step.
    cbn [length]. fold n. change (S (S n)) with (2 + n)%nat.
    rewrite Hhash. step.
    seen_as (by_id oid) c4.
    rewrite find_one_by_id, Hgone. cbn.
    eexists. split; [reflexivity|]. split; [done|]. cbn.
    rewrite !elem_of_cons. auto.
Qed.

Lemma X16_witness :
  (exec (deletes_at 5 (sample_oid "07")) sample_env
     (update_user "68eeafce05740b9d36aab307" maria) one_user).1
  = inl TypeError ∧
  (exec (deletes_at 4 (sample_oid "13")) sample_env
     (create_user maria) one_user).1
  = inl TypeError.
Proof.
  destruct (X16_vanished_before_read_back (deletes_at 5 (sample_oid "07"))
              sample_env one_user) as [_ Hupd].
  destruct (X16_vanished_before_read_back (deletes_at 4 (sample_oid "13"))
              sample_env one_user) as [Hcre _].
  split.
  - destruct (Hupd "68eeafce05740b9d36aab307" (sample_oid "07")
                (sample_oid "07", juan_doc) maria "$2b$12$salt2#secret2")
      as (w' & -> & _); reflexivity.
  - destruct (Hcre maria "$2b$12$salt1#secret2") as (w' & -> & _);
      [reflexivity | reflexivity | | reflexivity..].
    vm_compute. intros Hin%list_elem_of_singleton. discriminate.
Defined.

(** X17: the email check of Create and the insert are two store calls.  If
    another request inserts a document holding the same email between them,
    Create (with a password bcrypt accepts) still succeeds (201), and the
    collection then holds two documents with that email. *)
Theorem X17_concurrent_create_duplicates E user hashed x w :
  let n := length (trace w) in
  let oid := next_ObjectId E (3 + n) in
  List.find (has_email (email user)) (users w) = None →
  bcrypt_hashpw E (password user) (next_salt E (S n)) = Some hashed →
  has_email (email user) x = true →
  oid ∉ (users w).*1 → oid ≠ x.1 →
  ∃ resp w',
    exec (inserts_at (3 + n) x) E (create_user user) w = (inr resp, w') ∧
    success resp = true ∧ statusCode resp = 201 ∧
    length (holders (email user) (users w')) = 2%nat ∧
    ¬ unique_emails (users w').
Proof.
  intros n oid Hfree Hhash Hx Hnew Hne.
  assert (length (holders (email user)
            ((users w ++ [x]) ++ [(oid, user_fields user hashed)]))
          = 2%nat) as Htwo.
  { unfold holders. rewrite !List.filter_app. cbn [List.filter].
    fold (holders (email user) (users w)).
    rewrite (holders_nil _ _ Hfree), Hx, has_email_fields,
      bool_decide_eq_true_2 by done. done. }
  assert (oid ∉ (users w ++ [x]).*1) as Hnew'.
  { rewrite fmap_app. intros [?|Hin]%elem_of_app; [done|].
    apply list_elem_of_singleton in Hin. done. }
  assert (∀ c, inserts_at (3 + n) x n c = c) as Hfirst.
  { intros c. unfold inserts_at.
    by rewrite (proj2 (Nat.eqb_neq n (3 + n))) by lia. }
  assert (∀ c, inserts_at (3 + n) x (S (S (S n))) c = c ++ [x]) as Hthen.
  { intros c. unfold inserts_at. by rewrite Nat.eqb_refl. }
  assert (∀ c, inserts_at (3 + n) x (S (S (S (S n)))) c = c) as Hlast.
  { intros c. unfold inserts_at.
    by rewrite (proj2 (Nat.eqb_neq (S (S (S (S n)))) (3 + n))) by lia. }
  unfold create_user. step. cbn [length]. fold n. rewrite !Hfirst.
  rewrite find_one_by_email, Hfree.
  cbn [fmap option_fmap option_map doc_truthy]. step. cbn [length]. fold n.
  rewrite Hhash. step. cbn [length]. fold n.
  rewrite !Hthen. change (next_ObjectId E (S (S (S n)))) with oid.
  rewrite (insert_one_new _ _ _ Hnew'). step. cbn [length]. fold n.
  rewrite !Hlast. rewrite find_one_by_id, (by_key_app_new _ _ _ Hnew').
  cbn [fmap option_fmap option_map stringify_id_opt].
  rewrite stringify_id_to_doc. step.
  eexists _, _. split; [reflexivity|]. split; [done|]. split; [done|].
  cbn [users]. split; [exact Htwo|].
  intros Huniq. enough (2 ≤ 1)%nat by lia.
  rewrite <- Htwo at 1. exact (Huniq (email user)).
Qed.

Lemma X17_witness :
  ∃ resp w',
    exec (inserts_at 3 (sample_oid "09", maria_doc)) sample_env
      (create_user maria) one_user = (inr resp, w') ∧
    statusCode resp = 201 ∧ ¬ unique_emails (users w').
Proof.
  destruct (X17_concurrent_create_duplicates sample_env maria
              "$2b$12$salt1#secret2" (sample_oid "09", maria_doc) one_user)
    as (resp & w' & Hrun & _ & Hst & _ & Hdup).
  - reflexivity.
  - reflexivity.
  - reflexivity.
  - vm_compute. intros Hin%list_elem_of_singleton. discriminate.
  - vm_compute. discriminate.
  - by exists resp, w'.
Defined.

(** ** The connection globals of config/database.py *)

Section connection.

Import database.

Context (D : driver) (mongodb_url : string).

Lemma lifecycle_snoc ops op s :
  lifecycle D mongodb_url (ops ++ [op]) s
  = lifecycle_step D mongodb_url op (lifecycle D mongodb_url ops s).
Proof. unfold lifecycle. by rewrite fold_left_app. Qed.

Lemma connect_accepted name s :
  accepts D mongodb_url = true →
  default_database D mongodb_url = Some name →
  connect_to_mongo D mongodb_url s
  = (None,
     mkState (clients s ++ [mkClient mongodb_url false])
       (Some (length (clients s)))
       (Some (mkDatabase (length (clients s)) name))
       (printed s ++ ["✅ Conectado a MongoDB: " +:+ mongodb_url])).
Proof. intros Ha Hd. unfold connect_to_mongo. by rewrite Ha, Hd. Qed.

Lemma connect_no_database s :
  accepts D mongodb_url = true →
  default_database D mongodb_url = None →
  connect_to_mongo D mongodb_url s
  = (Some ConfigurationError,
     mkState (clients s ++ [mkClient mongodb_url false])
       (Some (length (clients s))) (database s) (printed s)).
Proof. intros Ha Hd. unfold connect_to_mongo. by rewrite Ha, Hd. Qed.

Lemma connect_refused s :
  accepts D mongodb_url = false →
  connect_to_mongo D mongodb_url s = (Some ClientError, s).
Proof. intros Ha. unfold connect_to_mongo. by rewrite Ha. Qed.

Lemma connect_clients s :
  accepts D mongodb_url = true →
  clients (connect_to_mongo D mongodb_url s).2
  = clients s ++ [mkClient mongodb_url false].
Proof.
  intros Ha. unfold connect_to_mongo. rewrite Ha. cbn.
  by destruct (default_database D mongodb_url).
Qed.

Lemma client_is_last_step op s :
  client_is_last s → client_is_last (lifecycle_step D mongodb_url op s).
Proof.
  unfold client_is_last. destruct op; cbn.
  - unfold connect_to_mongo. destruct (accepts D mongodb_url); cbn; [|done].
    intros _.
    destruct (default_database D mongodb_url); cbn; rewrite length_app;
      simpl; lia.
  - unfold close_mongo_connection.
    destruct (client s) as [i|] eqn:Hc; cbn; [|by rewrite Hc].
    unfold close_client. by rewrite length_alter.
Qed.

Lemma lifecycle_client_is_last ops s :
  client_is_last s → client_is_last (lifecycle D mongodb_url ops s).
Proof.
  intros Hs. induction ops as [|op ops IH] using rev_ind; [done|].
  rewrite lifecycle_snoc. by apply client_is_last_step.
Qed.

Lemma lifecycle_frozen ops s i c :
  client_is_last s →
  clients s !! i = Some c → (S i < length (clients s))%nat →
  clients (lifecycle D mongodb_url ops s) !! i = Some c
  ∧ (S i < length (clients (lifecycle D mongodb_url ops s)))%nat.
Proof.
  intros Hs Hi Hlt. induction ops as [|op ops [IH1 IH2]] using rev_ind; [done|].
  rewrite lifecycle_snoc.
  pose proof (lifecycle_client_is_last ops s Hs) as Hlast.
  destruct op; cbn.
  - unfold connect_to_mongo. destruct (accepts D mongodb_url); cbn; [|done].
    destruct (default_database D mongodb_url); cbn;
      rewrite lookup_app_l, length_app by lia; simpl; (split; [done | lia]).
  - unfold close_mongo_connection, client_is_last in *.
    destruct (client (lifecycle D mongodb_url ops s)) as [j|]; cbn; [|done].
    unfold close_client.
    rewrite list_lookup_alter_ne by lia. rewrite length_alter. done.
Qed.

Lemma coherent_step name op s :
  accepts D mongodb_url = true →
  default_database D mongodb_url = Some name →
  coherent s → coherent (lifecycle_step D mongodb_url op s).
Proof.
  intros Ha Hd. unfold coherent. destruct op; cbn.
  - rewrite (connect_accepted name s Ha Hd). cbn.
    intros _. split; [done|]. rewrite length_app. simpl. lia.
  - unfold close_mongo_connection.
    destruct (client s) as [i|] eqn:Hc; cbn; [|by rewrite Hc].
    destruct (database s) as [d|]; [|done].
    unfold close_client. by rewrite length_alter.
Qed.

Lemma lifecycle_coherent name ops s :
  accepts D mongodb_url = true →
  default_database D mongodb_url = Some name →
  coherent s → coherent (lifecycle D mongodb_url ops s).
Proof.
  intros Ha Hd Hs. induction ops as [|op ops IH] using rev_ind; [done|].
  rewrite lifecycle_snoc. by apply (coherent_step name).
Qed.

Lemma lifecycle_database name ops s :
  accepts D mongodb_url = true →
  default_database D mongodb_url = Some name →
  get_database (lifecycle D mongodb_url ops s) = None
  ↔ get_database s = None ∧ Connect ∉ ops.
Proof.
  intros Ha Hd. induction ops as [|op ops IH] using rev_ind.
  - split; [intros ?; split; [done | apply not_elem_of_nil] | by intros [? _]].
  - rewrite lifecycle_snoc, not_elem_of_app, list_elem_of_singleton.
    destruct op; cbn.
    + rewrite (connect_accepted name _ Ha Hd). cbn.
      split; [done | by intros (_ & _ & ?)].
    + unfold close_mongo_connection. unfold get_database in *.
      destruct (client (lifecycle D mongodb_url ops s)); cbn; rewrite IH;
        (split; [by intros [? ?] | by intros (? & ? & _)]).
Qed.

Lemma lifecycle_no_database ops s :
  accepts D mongodb_url = false ∨ default_database D mongodb_url = None →
  get_database (lifecycle D mongodb_url ops s) = get_database s.
Proof.
  intros Hbad. induction ops as [|op ops IH] using rev_ind; [done|].
  rewrite lifecycle_snoc, <- IH. destruct op; cbn.
  - unfold connect_to_mongo. destruct (accepts D mongodb_url); cbn; [|done].
    destruct Hbad as [?| ->]; done.
  - unfold close_mongo_connection.
    by destruct (client (lifecycle D mongodb_url ops s)).
Qed.

(** X18: the handle of [get_database()] through any sequence of connects
    and closes after loading the module.  For a URL from which the driver
    builds a client and which names a database, [get_database()] is [None]
    exactly as long as no connect was made; once set, the handle refers to
    the client created last; a close does not reset it, so the handle is
    returned as before and its client is then closed; a connect leaves a
    handle whose client is open.  For a URL the driver refuses, or one that
    names no database, [get_database()] stays [None] whatever is called;
    in the second case every connect raises ConfigurationError after it has
    put a new, open client into [client], and prints nothing. *)
Theorem X18_get_database_lifecycle ops :
  let s := lifecycle D mongodb_url ops initial in
  (∀ name,
     accepts D mongodb_url = true →
     default_database D mongodb_url = Some name →
     (get_database s = None ↔ Connect ∉ ops) ∧
     (∀ d, get_database s = Some d →
           client s = Some (db_client d) ∧
           S (db_client d) = length (clients s) ∧
           get_database (close_mongo_connection s) = Some d ∧
           handle_open (close_mongo_connection s) d = false) ∧
     (∃ d s', connect_to_mongo D mongodb_url s = (None, s') ∧
              get_database s' = Some d ∧ db_name d = name ∧
              handle_open s' d = true)) ∧
  (accepts D mongodb_url = false ∨ default_database D mongodb_url = None →
   get_database s = None) ∧
  (accepts D mongodb_url = true →
   default_database D mongodb_url = None →
   ∃ s', connect_to_mongo D mongodb_url s = (Some ConfigurationError, s') ∧
         get_database s' = None ∧
         client s' = Some (length (clients s)) ∧
         clients s' = clients s ++ [mkClient mongodb_url false] ∧
         printed s' = printed s).
Proof.
  intros s. split; [|split].
  - intros name Ha Hd. split; [|split].
    + subst s. rewrite (lifecycle_database name) by done.
      split; [by intros [_ ?] | by intros ?].
    + intros d Hget.
      pose proof (lifecycle_coherent name ops initial Ha Hd eq_refl) as Hco.
      fold s in Hco. unfold coherent, get_database in *. rewrite Hget in Hco.
      destruct (client s) as [i|] eqn:Hc; [|done]. destruct Hco as [Hdi Hlen].
      rewrite Hdi. split; [done|]. split; [done|].
      unfold close_mongo_connection, handle_open. rewrite Hc, Hdi. cbn.
      split; [done|]. unfold close_client. rewrite list_lookup_alter_eq.
      destruct (lookup_lt_is_Some_2 (clients s) i) as [c ->]; [lia | done].
    + rewrite (connect_accepted name s Ha Hd). eexists _, _.
      split; [reflexivity|]. split; [reflexivity|]. split; [reflexivity|].
      unfold handle_open. cbn. by rewrite list_lookup_middle.
  - intros Hbad. subst s. by rewrite lifecycle_no_database.
  - intros Ha Hd. rewrite (connect_no_database s Ha Hd). eexists.
    split; [reflexivity|]. cbn. split; [|done].
    subst s. rewrite lifecycle_no_database; [done | by right].
Qed.

(** X19: a client that has been replaced by a later connect is never
    touched again, so it is never closed: [close_mongo_connection] closes
    only the client created last.  For a URL from which the driver builds a
    client, after two connects the first client stays open whatever
    follows, whether or not the connects went on to set [database]. *)
Theorem X19_replaced_client_stays_open :
  (∀ ops s i c,
     client_is_last s → clients s !! i = Some c →
     (S i < length (clients s))%nat →
     clients (lifecycle D mongodb_url ops s) !! i = Some c) ∧
  (accepts D mongodb_url = true →
   ∀ ops,
     clients (lifecycle D mongodb_url (Connect :: Connect :: ops) initial) !! O
     = Some (mkClient mongodb_url false)).
Proof.
  split.
  - intros ops s i c Hs Hi Hlt.
    by destruct (lifecycle_frozen ops s i c Hs Hi Hlt).
  - intros Ha ops.
    change (lifecycle D mongodb_url (Connect :: Connect :: ops) initial)
      with (lifecycle D mongodb_url ops
              (lifecycle D mongodb_url [Connect; Connect] initial)).
    assert (client_is_last (lifecycle D mongodb_url [Connect; Connect] initial))
      as Hlast by (by apply lifecycle_client_is_last).
    apply (lifecycle_frozen ops _ O _ Hlast).
    all: cbn; rewrite !connect_clients by done; cbn; done || lia.
Qed.

(** X20: the lifespan of the application.  For a URL from which the driver
    builds a client and which names a database, the startup part leaves,
    whatever the globals were, a handle whose client is open; the shutdown
    part after it closes that client and keeps the handle, and the two
    parts print and log their four lines in order.  For a URL that names no
    database the startup part raises ConfigurationError: nothing is printed
    or logged, [get_database()] gives what it gave before, and the client
    just created stays open, since the shutdown part does not run.  For a
    URL the driver refuses the startup part raises and changes nothing. *)
Theorem X20_lifespan (a : state * list string) :
  (∀ name,
     accepts D mongodb_url = true →
     default_database D mongodb_url = Some name →
     ∃ up d,
       lifespan_startup D mongodb_url a = (None, up) ∧
       lifespan D mongodb_url a = (None, lifespan_shutdown up) ∧
       get_database up.1 = Some d ∧ handle_open up.1 d = true ∧
       get_database (lifespan_shutdown up).1 = Some d ∧
       handle_open (lifespan_shutdown up).1 d = false ∧
       printed (lifespan_shutdown up).1
       = printed a.1 ++ ["✅ Conectado a MongoDB: " +:+ mongodb_url;
                         "❌ Conexión a MongoDB cerrada"] ∧
       (lifespan_shutdown up).2
       = a.2 ++ ["🚀 Aplicación iniciada"; "👋 Aplicación finalizada"]) ∧
  (accepts D mongodb_url = true →
   default_database D mongodb_url = None →
   ∃ s,
     lifespan_startup D mongodb_url a = (Some ConfigurationError, (s, a.2)) ∧
     lifespan D mongodb_url a = (Some ConfigurationError, (s, a.2)) ∧
     get_database s = get_database a.1 ∧
     printed s = printed a.1 ∧
     client s = Some (length (clients a.1)) ∧
     clients s !! length (clients a.1) = Some (mkClient mongodb_url false)) ∧
  (accepts D mongodb_url = false →
   lifespan D mongodb_url a = (Some ClientError, a)).
Proof.
  split; [|split].
  - intros name Ha Hd. unfold lifespan, lifespan_startup.
    rewrite (connect_accepted name _ Ha Hd).
    eexists _, (mkDatabase (length (clients a.1)) name).
    split; [reflexivity|]. split; [reflexivity|]. cbn.
    unfold handle_open. cbn. unfold close_client.
    rewrite list_lookup_alter_eq, list_lookup_middle by done.
    repeat split; by rewrite <- app_assoc.
  - intros Ha Hd. unfold lifespan, lifespan_startup.
    rewrite (connect_no_database _ Ha Hd). eexists.
    split; [reflexivity|]. split; [reflexivity|]. cbn.
    by rewrite list_lookup_middle.
  - intros Ha. unfold lifespan, lifespan_startup.
    rewrite (connect_refused _ Ha). by destruct a.
Qed.

End connection.

Lemma X18_witness :
  let s := database.lifecycle database.sample_driver
             "mongodb://localhost:27017/userdb"
             [database.Connect; database.Close] database.initial in
  (∃ d, database.get_database s = Some d ∧
        database.db_name d = "userdb" ∧
        database.handle_open s d = false) ∧
  database.get_database
    (database.lifecycle database.sample_driver "mongodb://localhost:27017"
       [database.Connect; database.Close] database.initial) = None.
Proof.
  intros s. split.
  - destruct (proj1 (X18_get_database_lifecycle database.sample_driver
                       "mongodb://localhost:27017/userdb" [database.Connect])
                "userdb" eq_refl eq_refl) as (_ & Hset & _).
    destruct (Hset (database.mkDatabase 0 "userdb") eq_refl)
      as (_ & _ & Hget & Hclosed).
    exists (database.mkDatabase 0 "userdb"). by split.
  - apply (proj1 (proj2 (X18_get_database_lifecycle database.sample_driver
                           "mongodb://localhost:27017"
                           [database.Connect; database.Close]))).
    by right.
Defined.

Lemma X19_witness :
  database.clients
    (database.lifecycle database.sample_driver "mongodb://localhost:27017"
       [database.Connect; database.Connect; database.Close; database.Close]
       database.initial) !! O
  = Some (database.mkClient "mongodb://localhost:27017" false).
Proof.
  apply (proj2 (X19_replaced_client_stays_open database.sample_driver
                  "mongodb://localhost:27017") eq_refl).
Defined.

Lemma X20_witness :
  (∃ up,
     database.lifespan database.sample_driver "mongodb://localhost:27017/userdb"
       (database.initial, [])
     = (None, database.lifespan_shutdown up) ∧
     (database.lifespan_shutdown up).2
     = ["🚀 Aplicación iniciada"; "👋 Aplicación finalizada"]) ∧
  (∃ s,
     database.lifespan database.sample_driver "mongodb://localhost:27017"
       (database.initial, [])
     = (Some database.ConfigurationError, (s, [])) ∧
     database.get_database s = None ∧ database.client s = Some O).
Proof.
  destruct (X20_lifespan database.sample_driver
              "mongodb://localhost:27017/userdb" (database.initial, []))
    as (Hgood & _ & _).
  destruct (X20_lifespan database.sample_driver
              "mongodb://localhost:27017" (database.initial, []))
    as (_ & Hnone & _).
  split.
  - destruct (Hgood "userdb" eq_refl eq_refl)
      as (up & d & _ & Hlife & _ & _ & _ & _ & _ & Hlog).
    by exists up.
  - destruct (Hnone eq_refl eq_refl) as (s & _ & Hlife & Hget & _ & Hcl & _).
    by exists s.
Defined.

(** ** utils/exceptions.py *)

(** X21: the detail of an error always holds its message; it holds the
    resource and the identifier exactly when they are set to a non-empty
    string (an empty string is dropped like [None]); it holds no other
    key. *)
Theorem X21_detail_keys (e : CustomHTTPException) :
  detail e !! "message" = Some (VStr (message e)) ∧
  detail e !! "resource"
  = (if opt_truthy (resource e) then VStr <$> resource e else None) ∧
  detail e !! "identifier"
  = (if opt_truthy (identifier e) then VStr <$> identifier e else None) ∧
  (resource e = Some "" → detail e !! "resource" = None) ∧
  (identifier e = Some "" → detail e !! "identifier" = None) ∧
  (∀ k, k ≠ "message" → k ≠ "resource" → k ≠ "identifier" →
        detail e !! k = None).
Proof.
  split; [apply detail_message|]. split; [apply detail_resource|].
  split; [apply detail_identifier|].
  split; [intros H; by rewrite detail_resource, H|].
  split; [intros H; by rewrite detail_identifier, H|].
  intros k ? ? ?. unfold detail, _build_detail, set_if_truthy.
  destruct (identifier e) as [[|]|], (resource e) as [[|]|];
    by simplify_map_eq.
Qed.

(** X22: in NotFound and AlreadyExists errors the message and the detail
    agree: either the identifier is missing or empty, the message is the
    resource followed by the fixed words, and the detail has no identifier;
    or the identifier is a non-empty string that ends the message and is
    the detail's identifier. *)
Theorem X22_message_agrees_with_detail res idn :
  let nf := NotFoundException res idn in
  let ae := AlreadyExistsException res idn in
  ((idn = None ∨ idn = Some "") ∧
   message nf = res +:+ " no encontrado" ∧
   message ae = res +:+ " ya existe" ∧
   detail nf !! "identifier" = None ∧ detail ae !! "identifier" = None)
  ∨
  (∃ s, idn = Some s ∧ s ≠ "" ∧
        message nf = (res +:+ " no encontrado")
                       +:+ " con identificador: " +:+ s ∧
        message ae = (res +:+ " ya existe") +:+ " con: " +:+ s ∧
        detail nf !! "identifier" = Some (VStr s) ∧
        detail ae !! "identifier" = Some (VStr s)).
Proof.
  intros nf ae. subst nf ae. rewrite !detail_identifier.
  destruct idn as [[|c s]|]; cbn.
  - left. split; [by right | done].
  - right. by exists (String c s).
  - left. split; [by left | done].
Qed.

(** ** The calls one request makes *)

(** X24: a handler running on its own only adds calls to the log; per
    request it writes to the collection at most once and calls it at most
    four times, it calls bcrypt not at all or twice (one salt, one hash),
    and the first call it makes, if any, is a lookup. *)
Theorem X24_call_budget E r w :
  ∃ new,
    trace (run E (handler r) w).2 = new ++ trace w ∧
    (length (List.filter is_write new) ≤ 1)%nat ∧
    (length (List.filter is_store_call new) ≤ 4)%nat ∧
    (List.filter (λ c, negb (is_store_call c)) new = [] ∨
     ∃ pw salt, List.filter (λ c, negb (is_store_call c)) new
                = [CHashPw pw salt; CGenSalt]) ∧
    (new = [] ∨ ∃ c, last new = Some c ∧ is_read c = true).
Proof.
  destruct r as [|user|user_id|user_id user|user_id]; cbn [handler];
    run_cases E w; cbn [snd trace].
  all: match goal with
       | |- ∃ new, ?t = new ++ ?t ∧ _ => exists []
       | |- ∃ new, ?a :: ?t = new ++ ?t ∧ _ => exists [a]
       | |- ∃ new, ?a :: ?b :: ?t = new ++ ?t ∧ _ => exists [a; b]
       | |- ∃ new, ?a :: ?b :: ?c :: ?t = new ++ ?t ∧ _ => exists [a; b; c]
       | |- ∃ new, ?a :: ?b :: ?c :: ?d :: ?t = new ++ ?t ∧ _ =>
           exists [a; b; c; d]
       | |- ∃ new, ?a :: ?b :: ?c :: ?d :: ?e :: ?t = new ++ ?t ∧ _ =>
           exists [a; b; c; d; e]
       | |- ∃ new, ?a :: ?b :: ?c :: ?d :: ?e :: ?f :: ?t = new ++ ?t ∧ _ =>
           exists [a; b; c; d; e; f]
       end.
  all: split; [done|]; cbn; split; [lia|]; split; [lia|]; split; eauto.
Qed.
